(** * A shallow embedding of the hook engine and the streaming buffers of
    llm-event-hooks (src/core/HookManager.ts, src/core/EventEmitter.ts,
    src/streaming/StreamBuffer.ts, src/streaming/BufferManager.ts).

    Conventions of the embedding:
    - JavaScript numbers used as counters, priorities and millisecond
      timestamps are modelled as [Z];
    - a reading of the clock ([Date.now()], [new Date()]) is an explicit
      argument [now]; readings inside one synchronous call are taken equal;
    - a JavaScript [Map] is an association list kept in insertion order;
    - a thrown or rejected value is a [JsError] with its [name] and
      [message]. *)

From Stdlib Require Import List ZArith String Bool Lia Permutation.
Import ListNotations.
Open Scope string_scope.
Open Scope list_scope.
Open Scope Z_scope.

(** ** JavaScript values shared by all modules *)
Module Js.

Record JsError := mkJsError { err_name : string; err_message : string }.

(** [new Error(msg)] *)
Definition Error (msg : string) : JsError := mkJsError "Error" msg.

Definition digit (d : Z) : string :=
  match d with
  | 0 => "0" | 1 => "1" | 2 => "2" | 3 => "3" | 4 => "4"
  | 5 => "5" | 6 => "6" | 7 => "7" | 8 => "8" | _ => "9"
  end.

Fixpoint nat_digits (fuel : nat) (n : Z) (acc : string) : string :=
  match fuel with
  | O => acc
  | S f =>
      let acc' := String.append (digit (n mod 10)) acc in
      if Z.ltb n 10 then acc' else nat_digits f (n / 10) acc'
  end.

(** Decimal rendering of an integer in a template literal. *)
Definition show_Z (n : Z) : string :=
  if Z.ltb n 0 then String.append "-" (nat_digits 64 (- n) "")
  else nat_digits 64 n "".

End Js.
Import Js.

(** ** StreamBuffer (src/streaming/StreamBuffer.ts) *)
Module StreamBufferModel.

Inductive Strategy := Size | Time | Hybrid.

Definition Strategy_eqb (a b : Strategy) : bool :=
  match a, b with
  | Size, Size | Time, Time | Hybrid, Hybrid => true
  | _, _ => false
  end.

(** ['size' | 'time' | 'hybrid'] of [flushReason], plus ['manual'] for
    [flush]. *)
Inductive FlushReason := RSize | RTime | RHybrid | RManual.

Record StreamBufferConfig := mkConfig {
  maxSize : Z;
  maxTime : Z;
  strategy : Strategy;
  enableMetrics : bool
}.

Record Chunk := mkChunk {
  chunk_id : string;
  content : string;
  index : Z
}.

(** What the awaited flush pipeline ([onFlush] or
    [bufferEvent.processBufferFlush]) settles to. *)
Inductive FlushOutcome :=
| FlushOk (processed : list Chunk)
| FlushErr (e : JsError).

Record StreamBuffer := mkBuffer {
  sb_id : string;
  config : StreamBufferConfig;
  onFlush : option (list Chunk -> FlushOutcome);
  chunks : list Chunk;
  createdAt : Z;
  lastChunkTime : Z;
  flushTimerArmed : bool;
  isActive : bool;
  totalChunksAdded : Z;
  totalFlushes : Z
}.

Definition timed (c : StreamBufferConfig) : bool :=
  match strategy c with Time | Hybrid => true | Size => false end.

(** [new StreamBuffer({id, config, onFlush})] at time [now]; the timer
    is started for the [time] and [hybrid] strategies. *)
Definition newStreamBuffer (id : string) (c : StreamBufferConfig)
    (h : option (list Chunk -> FlushOutcome)) (now : Z) : StreamBuffer :=
  mkBuffer id c h [] now now (timed c) true 0 0.

Definition set_chunks (s : StreamBuffer) (l : list Chunk) : StreamBuffer :=
  mkBuffer (sb_id s) (config s) (onFlush s) l (createdAt s) (lastChunkTime s)
    (flushTimerArmed s) (isActive s) (totalChunksAdded s) (totalFlushes s).

(** Return value of [addChunk] / [addChunks]. *)
Record AddResult := mkAddResult {
  shouldFlush : bool;
  flushReason : option FlushReason;
  bufferedChunks : Z
}.

(** The private [shouldFlush()] check, at clock reading [now].  The
    products [maxSize * 0.7] and [maxTime * 0.5] are read as exact
    rationals. *)
Definition shouldFlush_check (s : StreamBuffer) (now : Z)
    : bool * option FlushReason :=
  let c := config s in
  let age := now - createdAt s in
  let timeSinceLastChunk := now - lastChunkTime s in
  let len := Z.of_nat (List.length (chunks s)) in
  if maxSize c <=? len then (true, Some RSize)
  else if Strategy_eqb (strategy c) Time && (maxTime c <=? age)
  then (true, Some RTime)
  else if Strategy_eqb (strategy c) Hybrid then
    if maxTime c <=? age then (true, Some RHybrid)
    else if (7 * maxSize c <=? 10 * len) && (maxTime c <=? 2 * timeSinceLastChunk)
    then (true, Some RHybrid)
    else (false, None)
  else (false, None).

(** Callbacks queued on the event loop by the buffer itself:
    [setImmediate(() => this.flush(reason))]. *)
Inductive Task := ImmediateFlush (r : FlushReason).

(** [addChunk(chunk)]: the result, the new state and the callbacks it
    queued. *)
Definition addChunk (s : StreamBuffer) (chunk : Chunk) (now : Z)
    : AddResult * StreamBuffer * list Task :=
  if negb (isActive s) then (mkAddResult false None 0, s, [])
  else
    let s1 := mkBuffer (sb_id s) (config s) (onFlush s) (app (chunks s) [chunk])
                (createdAt s) now (flushTimerArmed s) (isActive s)
                (totalChunksAdded s + 1) (totalFlushes s) in
    let '(sf, reason) := shouldFlush_check s1 now in
    let tasks := match sf, reason with
                 | true, Some r => [ImmediateFlush r]
                 | _, _ => []
                 end in
    (mkAddResult sf reason (Z.of_nat (List.length (chunks s1))), s1, tasks).

(** [addChunks(chunks)]. *)
Definition addChunks (s : StreamBuffer) (cs : list Chunk) (now : Z)
    : AddResult * StreamBuffer * list Task :=
  if negb (isActive s) then (mkAddResult false None 0, s, [])
  else
    let s1 := mkBuffer (sb_id s) (config s) (onFlush s) (app (chunks s) cs)
                (createdAt s) now (flushTimerArmed s) (isActive s)
                (totalChunksAdded s + Z.of_nat (List.length cs)) (totalFlushes s) in
    let '(sf, reason) := shouldFlush_check s1 now in
    let tasks := match sf, reason with
                 | true, Some r => [ImmediateFlush r]
                 | _, _ => []
                 end in
    (mkAddResult sf reason (Z.of_nat (List.length (chunks s1))), s1, tasks).

(** [flush] is [async]: its synchronous prefix either returns [[]] at
    once or copies the chunk list and starts the pipeline, then awaits
    it.  [FlushAwaiting] holds the copy and what the pipeline settles
    to. *)
Inductive FlushStart :=
| FlushReturnsEmpty
| FlushAwaiting (chunksToFlush : list Chunk) (outcome : FlushOutcome).

(** [bufferEvent.processBufferFlush(...)] on the buffer's own private
    [BufferFlushEvent]: no hook is registered on it and the ['default']
    validation rule only checks that [bufferId], [chunks] and
    [flushReason] are present, so the chunks come back unchanged. *)
Definition processBufferFlush_default (cs : list Chunk) : FlushOutcome :=
  FlushOk cs.

Definition flush_begin (s : StreamBuffer) : FlushStart :=
  if negb (isActive s) || (List.length (chunks s) =? 0)%nat then FlushReturnsEmpty
  else
    let chunksToFlush := chunks s in
    FlushAwaiting chunksToFlush
      (match onFlush s with
       | Some h => h chunksToFlush
       | None => processBufferFlush_default chunksToFlush
       end).

(** The continuation after the [await], run on whatever state the
    buffer is in when the pipeline settles: both the [try] path and the
    [catch] path set [this.chunks = []]; only the [try] path counts the
    flush; the [catch] path rethrows. *)
Definition flush_resume (s : StreamBuffer) (outcome : FlushOutcome)
    : (list Chunk + JsError) * StreamBuffer :=
  match outcome with
  | FlushOk processed =>
      (inl processed,
       mkBuffer (sb_id s) (config s) (onFlush s) [] (createdAt s)
         (lastChunkTime s) (flushTimerArmed s) (isActive s)
         (totalChunksAdded s) (totalFlushes s + 1))
  | FlushErr e => (inr e, set_chunks s [])
  end.

(** [flush(reason)] when nothing else runs during its [await]. *)
Definition flush (s : StreamBuffer) : (list Chunk + JsError) * StreamBuffer :=
  match flush_begin s with
  | FlushReturnsEmpty => (inl [], s)
  | FlushAwaiting _ outcome => flush_resume s outcome
  end.

(** The event loop running one queued callback to completion. *)
Definition run_task (t : Task) (s : StreamBuffer) : StreamBuffer :=
  match t with ImmediateFlush _ => snd (flush s) end.

Fixpoint run_tasks (ts : list Task) (s : StreamBuffer) : StreamBuffer :=
  match ts with
  | [] => s
  | t :: ts' => run_tasks ts' (run_task t s)
  end.

(** [pause()]: stops accepting chunks and clears the timer. *)
Definition pause (s : StreamBuffer) : StreamBuffer :=
  mkBuffer (sb_id s) (config s) (onFlush s) (chunks s) (createdAt s)
    (lastChunkTime s) false false (totalChunksAdded s) (totalFlushes s).

(** [clear()]. *)
Definition clear (s : StreamBuffer) : list Chunk * StreamBuffer :=
  (chunks s, set_chunks s []).

(** [destroy()]: pause, then clear; returns the remainder. *)
Definition destroy (s : StreamBuffer) : list Chunk * StreamBuffer :=
  clear (pause s).

End StreamBufferModel.

(** ** BufferManager (src/streaming/BufferManager.ts) *)
Module BufferManagerModel.
Import StreamBufferModel.

Record BufferInfo := mkInfo {
  bi_id : string;
  bi_buffer : StreamBuffer;
  bi_createdAt : Z;
  bi_lastActivity : Z
}.

(** The manager's configuration after the constructor has merged the
    defaults ([maxBuffers: 100], [cleanupAge: 5 * 60 * 1000], ...). *)
Record BufferManagerConfig := mkManagerConfig {
  defaultBufferConfig : StreamBufferConfig;
  maxBuffers : Z;
  autoCleanup : bool;
  cleanupAge : Z
}.

(** [buffers] is a [Map<string, BufferInfo>], kept in insertion order. *)
Record BufferManager := mkManager {
  bm_config : BufferManagerConfig;
  buffers : list (string * BufferInfo)
}.

Definition map_has (k : string) (m : list (string * BufferInfo)) : bool :=
  existsb (fun e => String.eqb (fst e) k) m.

Definition map_size (m : list (string * BufferInfo)) : Z :=
  Z.of_nat (List.length m).

(** [Map.prototype.set] on a key that is absent appends the entry. *)
Definition map_set (k : string) (v : BufferInfo) (m : list (string * BufferInfo))
    : list (string * BufferInfo) :=
  if map_has k m
  then map (fun e => if String.eqb (fst e) k then (k, v) else e) m
  else app m [(k, v)].

(** The eviction test of [cleanup()]: [age > cleanupAge ||
    inactiveTime > cleanupAge / 2], the division read exactly. *)
Definition evicted (cleanupAge now : Z) (info : BufferInfo) : bool :=
  let age := now - bi_createdAt info in
  let inactiveTime := now - bi_lastActivity info in
  (cleanupAge <? age) || (cleanupAge <? 2 * inactiveTime).

(** [cleanup()]: iterating a [Map] while deleting the visited entry
    visits every entry once, so the pass is a filter; each evicted
    buffer is destroyed and dropped. *)
Definition cleanup (m : BufferManager) (now : Z) : list string * BufferManager :=
  let ca := cleanupAge (bm_config m) in
  (map fst (filter (fun e => evicted ca now (snd e)) (buffers m)),
   mkManager (bm_config m)
     (filter (fun e => negb (evicted ca now (snd e))) (buffers m))).

Definition dq : string := String (Ascii.ascii_of_nat 34) EmptyString.

Definition duplicate_error (bufferId : string) : JsError :=
  Error (String.append "Buffer with id " (String.append dq
    (String.append bufferId (String.append dq " already exists")))).

Definition capacity_error (bufferId : string) (mb : Z) : JsError :=
  Error (String.append "Cannot create buffer " (String.append dq
    (String.append bufferId (String.append dq
      (String.append " - maximum buffer limit ("
        (String.append (show_Z mb) ") reached")))))).

(** [setupBufferEventListeners(bufferId, buffer)] calls
    [buffer.on('flushed', ...)]; [StreamBuffer] extends no class and
    declares no [on] method, so the call throws a [TypeError]. *)
Definition setupBufferEventListeners (b : StreamBuffer) : option JsError :=
  Some (mkJsError "TypeError" "buffer.on is not a function").

(** [createBuffer(bufferId, {config, onFlush})] at clock reading [now]:
    the thrown error or the returned buffer, and the manager after the
    call. *)
Definition createBuffer (m : BufferManager) (bufferId : string)
    (cfg : option StreamBufferConfig)
    (h : option (list Chunk -> FlushOutcome)) (now : Z)
    : (StreamBuffer + JsError) * BufferManager :=
  let mc := bm_config m in
  let insert (m0 : BufferManager) :=
    let bufferConfig := match cfg with
                        | Some c => c
                        | None => defaultBufferConfig mc
                        end in
    let buffer := newStreamBuffer bufferId bufferConfig h now in
    let m1 := mkManager mc (map_set bufferId (mkInfo bufferId buffer now now)
                              (buffers m0)) in
    match setupBufferEventListeners buffer with
    | Some e => (inr e, m1)
    | None => (inl buffer, m1)
    end in
  if map_has bufferId (buffers m) then (inr (duplicate_error bufferId), m)
  else if maxBuffers mc <=? map_size (buffers m) then
    let m1 := snd (cleanup m now) in
    if maxBuffers mc <=? map_size (buffers m1)
    then (inr (capacity_error bufferId (maxBuffers mc)), m1)
    else insert m1
  else insert m.

End BufferManagerModel.

(** ** Hook values shared by the two dispatchers (src/types) *)
Module HookTypes.

Inductive HookEvent :=
| MessageBefore | MessageAfter | ChunkBefore | ChunkAfter | BufferFlush
| ToolBefore | ToolAfter | ToolLoopBefore | ToolLoopAfter.

Definition HookEvent_eqb (a b : HookEvent) : bool :=
  match a, b with
  | MessageBefore, MessageBefore | MessageAfter, MessageAfter
  | ChunkBefore, ChunkBefore | ChunkAfter, ChunkAfter
  | BufferFlush, BufferFlush | ToolBefore, ToolBefore
  | ToolAfter, ToolAfter | ToolLoopBefore, ToolLoopBefore
  | ToolLoopAfter, ToolLoopAfter => true
  | _, _ => false
  end.

Section Payload.
Context {D : Type}.

(** How the promise of a hook call settles: a value ([None] for
    [undefined]) or a rejection (a synchronous throw included). *)
Inductive Settle :=
| Resolved (v : option D)
| Rejected (e : JsError).

(** When the promise of a call settles, seen from the event loop.
    [Sync]: within the macrotask that made the call, because the
    callback returned or threw synchronously (however long it ran), or
    returned a promise that settles through microtasks only.  [After d]:
    [d] ms after the call, in a later macrotask (a timer or I/O event
    the callback waits for). *)
Inductive Timing := Sync | After (d : Z).

(** One call of a user callback on a payload: how it settles and when. *)
Record HookRun := mkRun { hr_settle : Settle; hr_timing : Timing }.

End Payload.
Arguments Settle : clear implicits.
Arguments HookRun : clear implicits.

Definition HookFunction (D : Type) := D -> HookRun D.

End HookTypes.
Import HookTypes.

(** ** HookManager (src/core/HookManager.ts) *)
Module HookManagerModel.

Section Manager.
Context {D : Type}.

(** The [hook] field: the user's callback, or the [wrappedHook] built
    by [registerOneTimeHook], which closes over the registration id. *)
Inductive HookBody :=
| Plain (f : HookFunction D)
| OnceWrapper (id : string) (f : HookFunction D).

Record PriorityHookRegistration := mkReg {
  hook : HookBody;
  priority : Z;
  reg_id : string;
  oneTime : bool;
  timeout : option Z
}.

(** [hookRegistrations: Map<HookEvent, PriorityHookRegistration[]>]. *)
Definition Registry := list (HookEvent * list PriorityHookRegistration).

Fixpoint reg_lookup (ev : HookEvent) (reg : Registry)
    : option (list PriorityHookRegistration) :=
  match reg with
  | [] => None
  | (e, l) :: rest => if HookEvent_eqb e ev then Some l else reg_lookup ev rest
  end.

Fixpoint reg_update (ev : HookEvent)
    (g : list PriorityHookRegistration -> list PriorityHookRegistration)
    (reg : Registry) : Registry :=
  match reg with
  | [] => []
  | (e, l) :: rest =>
      if HookEvent_eqb e ev then (e, g l) :: rest else (e, l) :: reg_update ev g rest
  end.

(** [this.hookRegistrations.get(event) || []]. *)
Definition live (ev : HookEvent) (reg : Registry) : list PriorityHookRegistration :=
  match reg_lookup ev reg with Some l => l | None => [] end.

(** Insertion of [r] after every element whose priority is not larger. *)
Fixpoint insert_by_priority (r : PriorityHookRegistration)
    (l : list PriorityHookRegistration) : list PriorityHookRegistration :=
  match l with
  | [] => [r]
  | x :: l' =>
      if priority r <? priority x then r :: x :: l'
      else x :: insert_by_priority r l'
  end.

(** [registrations.sort((a, b) => a.priority - b.priority)]:
    [Array.prototype.sort] is stable, so this is the stable sort by
    priority (an insertion sort here). *)
Definition sort_by_priority (l : list PriorityHookRegistration)
    : list PriorityHookRegistration :=
  fold_left (fun acc x => insert_by_priority x acc) l [].

(** Initialise the event array if absent, push, sort. *)
Definition add_registration (ev : HookEvent) (r : PriorityHookRegistration)
    (reg : Registry) : Registry :=
  let reg1 := match reg_lookup ev reg with
              | Some _ => reg
              | None => app reg [(ev, [])]
              end in
  reg_update ev (fun l => sort_by_priority (app l [r])) reg1.

(** [registerHook(event, hook, {priority, id, timeout})]; [id] is the
    caller's id or the generated [hook-<now>-<random>]. *)
Definition registerHook (ev : HookEvent) (f : HookFunction D)
    (prio : Z) (id : string) (tmo : option Z) (reg : Registry)
    : string * Registry :=
  (id, add_registration ev (mkReg (Plain f) prio id false tmo) reg).

(** [registerOneTimeHook(event, hook, {priority, id, timeout})]. *)
Definition registerOneTimeHook (ev : HookEvent) (f : HookFunction D)
    (prio : Z) (id : string) (tmo : option Z) (reg : Registry)
    : string * Registry :=
  (id, add_registration ev (mkReg (OnceWrapper id f) prio id true tmo) reg).

Definition has_id (id : string) (l : list PriorityHookRegistration) : bool :=
  existsb (fun r => String.eqb (reg_id r) id) l.

(** [findIndex] followed by [splice(index, 1)]. *)
Fixpoint remove_first_id (id : string) (l : list PriorityHookRegistration)
    : list PriorityHookRegistration :=
  match l with
  | [] => []
  | x :: l' => if String.eqb (reg_id x) id then l' else x :: remove_first_id id l'
  end.

(** [unregisterHookById(hookId)]: the first event (in [Map] order)
    whose array holds the id loses its first such registration. *)
Fixpoint unregisterHookById (id : string) (reg : Registry) : bool * Registry :=
  match reg with
  | [] => (false, [])
  | (e, l) :: rest =>
      if has_id id l then (true, (e, remove_first_id id l) :: rest)
      else let '(b, rest') := unregisterHookById id rest in (b, (e, l) :: rest')
  end.

(** The per-hook entry of [executedHooks]. *)
Record ExecutedHook := mkExecuted {
  eh_hookId : string;
  eh_priority : Z;
  eh_modifiedData : bool
}.

(** [HookError] as pushed into [result.errors]. *)
Record HookError := mkHookError {
  he_hookId : string;
  he_event : HookEvent;
  he_error : JsError
}.

Record HookExecutionResult := mkResult {
  success : bool;
  executedHooks : list ExecutedHook;
  errors : list HookError;
  modifiedData : D;
  hookCount : nat
}.

(** Node clamps a [setTimeout] delay below 1 or above 2147483647 to 1. *)
Definition timer_delay (t : Z) : Z :=
  if (t <? 1) || (2147483647 <? t) then 1 else t.

(** [new Error(`Hook execution timed out after ${timeout}ms`)]. *)
Definition timeout_error (t : Z) : JsError :=
  Error (String.append "Hook execution timed out after "
           (String.append (show_Z t) "ms")).

(** The ids the one-shot wrapper of a registration unregisters. *)
Definition wrapper_ids (h : HookBody) : list string :=
  match h with OnceWrapper id _ => [id] | Plain _ => [] end.

(** The user callback a registration ends up calling. *)
Definition hook_fn (h : HookBody) : HookFunction D :=
  match h with OnceWrapper _ f | Plain f => f end.

(** One call [registration.hook(data, context)], raced against the
    timer when [registration.timeout] is truthy (non-zero).
    [executeWithTimeout] arms the timer, then calls [fn.apply] inside
    the [Promise] executor: a synchronous throw rejects the promise
    there, and a settlement within the calling macrotask reaches
    [clearTimeout] through the [.then] microtasks before any timer can
    run, so a [Sync] call always beats the timer.  A call settling
    [After d] loses to the timer when [d] is at least the delay (at
    equal expiry the timer, armed first, runs first).  The one-shot
    [wrappedHook] is [async] and awaits the callback before it
    unregisters, so its timing is the callback's.  Returned: how the
    awaited promise settles, the registry once the call has returned,
    and the ids a timed-out one-shot wrapper unregisters later (when
    its callback eventually settles). *)
Definition invoke (r : PriorityHookRegistration) (data : D) (reg : Registry)
    : Settle D * Registry * list string :=
  let run := hook_fn (hook r) data in
  let after_wrapper :=
    match hook r with
    | OnceWrapper id _ => snd (unregisterHookById id reg)
    | Plain _ => reg
    end in
  let late := wrapper_ids (hook r) in
  match timeout r with
  | Some t =>
      if t =? 0 then (hr_settle run, after_wrapper, [])
      else match hr_timing run with
           | After d =>
               if timer_delay t <=? d
               then (Rejected (timeout_error t), reg, late)
               else (hr_settle run, after_wrapper, [])
           | Sync => (hr_settle run, after_wrapper, [])
           end
  | None => (hr_settle run, after_wrapper, [])
  end.

(** The body of the [for] loop for one registration: [try] records
    the success and takes a non-[undefined] result as the new data;
    [catch] records the error and [continue]s. *)
Definition run_registration (ev : HookEvent) (r : PriorityHookRegistration)
    (data : D) (res : HookExecutionResult) (reg : Registry)
    : D * HookExecutionResult * Registry * list string :=
  let '(st, reg', late) := invoke r data reg in
  match st with
  | Resolved v =>
      let entry := mkExecuted (reg_id r) (priority r)
                     (match v with Some _ => true | None => false end) in
      let data' := match v with Some x => x | None => data end in
      (data',
       mkResult (success res) (app (executedHooks res) [entry]) (errors res)
         (match v with Some x => x | None => modifiedData res end)
         (hookCount res),
       reg', late)
  | Rejected e =>
      (data,
       mkResult (success res) (executedHooks res)
         (app (errors res) [mkHookError (reg_id r) ev e])
         (modifiedData res) (hookCount res),
       reg', late)
  end.

(** [for (const registration of registrations)] over the live array:
    the array iterator reads position [i] of the array as it is now
    and stops at its current length.  Hooks of this model only remove
    registrations, so the array never grows during the loop and the
    fuel [registrations.length] bounds the number of iterations. *)
Fixpoint dispatch_loop (fuel : nat) (ev : HookEvent) (i : nat) (data : D)
    (res : HookExecutionResult) (reg : Registry) (late : list string)
    : HookExecutionResult * Registry * list string :=
  match fuel with
  | O => (res, reg, late)
  | S fuel' =>
      match nth_error (live ev reg) i with
      | None => (res, reg, late)
      | Some r =>
          let '(data', res', reg', late') := run_registration ev r data res reg in
          dispatch_loop fuel' ev (S i) data' res' reg' (app late late')
      end
  end.

Definition unregister_all (ids : list string) (reg : Registry) : Registry :=
  fold_left (fun acc id => snd (unregisterHookById id acc)) ids reg.

(** [executeHooksWithMonitoring(event, data, context)]: the report and
    the registry once the dispatch and the late unregistrations of
    timed-out one-shot wrappers are over. *)
Definition executeHooksWithMonitoring (ev : HookEvent) (data : D)
    (reg : Registry) : HookExecutionResult * Registry :=
  let registrations := live ev reg in
  let res0 := mkResult true [] [] data (List.length registrations) in
  let '(res, reg', late) :=
    dispatch_loop (List.length registrations) ev 0 data res0 reg [] in
  (mkResult (match errors res with [] => true | _ => false end)
     (executedHooks res) (errors res) (modifiedData res) (hookCount res),
   unregister_all late reg').

(** Ids of the hooks a report shows as invoked, successful or failed. *)
Definition reported_ids (res : HookExecutionResult) : list string :=
  app (map eh_hookId (executedHooks res)) (map he_hookId (errors res)).

End Manager.
Arguments HookBody : clear implicits.
Arguments PriorityHookRegistration : clear implicits.
Arguments Registry : clear implicits.

End HookManagerModel.

(** ** HookableEventEmitter (src/core/EventEmitter.ts), the dispatcher of
    [MessageEvent], [ChunkEvent] and [BufferFlushEvent] *)
Module EmitterModel.

(** Keys of [hookRegistrations]: the hook events, and ['error'], under
    which the constructor's [this.on('error', ...)] registers. *)
Inductive EventKey := HookKey (e : HookEvent) | ErrorKey.

Definition EventKey_eqb (a b : EventKey) : bool :=
  match a, b with
  | HookKey x, HookKey y => HookEvent_eqb x y
  | ErrorKey, ErrorKey => true
  | _, _ => false
  end.

(** Function references, compared by identity in [unregisterHook]: a
    user function; the [wrappedHook] closure a [once] call creates and
    the [onceWrapper] Node binds around it, both numbered by the
    [nextHookId] at the start of that [once] call; the error listener
    of the constructor. *)
Inductive FnRef := UserFn (n : Z) | WrapperFn (n : Z) | OnceWrapFn (n : Z) | ErrorListenerFn.

Definition FnRef_eqb (a b : FnRef) : bool :=
  match a, b with
  | UserFn x, UserFn y | WrapperFn x, WrapperFn y | OnceWrapFn x, OnceWrapFn y => Z.eqb x y
  | ErrorListenerFn, ErrorListenerFn => true
  | _, _ => false
  end.

Section Emitter.
Context {D : Type}.

(** The [hook] field: a user callback; the [wrappedHook] of [once],
    which unregisters itself and then calls the user callback; or the
    bound [onceWrapper] of Node's [once], with the [fired] flag of its
    state and the [wrappedHook] it calls.  Only [executeHooks] calls a
    registration of this model, so [fired] is kept in the one
    registration that holds the bound function. *)
Inductive EHook :=
| EPlain (ref : FnRef) (f : HookFunction D)
| EOnce (ref : FnRef) (f : HookFunction D)
| EOnceWrap (ref : FnRef) (fired : bool) (target : FnRef) (f : HookFunction D).

Definition ehook_ref (h : EHook) : FnRef :=
  match h with EPlain r _ | EOnce r _ | EOnceWrap r _ _ _ => r end.

Record EReg := mkEReg {
  e_event : EventKey;
  e_hook : EHook;
  e_priority : Z;
  e_id : string
}.

Record Emitter := mkEmitter {
  e_regs : list (EventKey * list EReg);
  nextHookId : Z
}.

Fixpoint e_lookup (k : EventKey) (m : list (EventKey * list EReg))
    : option (list EReg) :=
  match m with
  | [] => None
  | (e, l) :: rest => if EventKey_eqb e k then Some l else e_lookup k rest
  end.

Fixpoint e_update (k : EventKey) (g : list EReg -> list EReg)
    (m : list (EventKey * list EReg)) : list (EventKey * list EReg) :=
  match m with
  | [] => []
  | (e, l) :: rest =>
      if EventKey_eqb e k then (e, g l) :: rest else (e, l) :: e_update k g rest
  end.

Fixpoint e_insert (r : EReg) (l : list EReg) : list EReg :=
  match l with
  | [] => [r]
  | x :: l' => if e_priority r <? e_priority x then r :: x :: l'
               else x :: e_insert r l'
  end.

(** The stable [sort((a, b) => a.priority - b.priority)]. *)
Definition e_sort (l : list EReg) : list EReg :=
  fold_left (fun acc x => e_insert x acc) l [].

(** [registerHook(event, hook, priority)]: the stored priority is
    [priority || 100]; the id is [hook-<nextHookId++>]. *)
Definition e_registerHook (k : EventKey) (h : EHook) (prio : Z)
    (st : Emitter) : Emitter :=
  let r := mkEReg k h (if prio =? 0 then 100 else prio)
             (String.append "hook-" (show_Z (nextHookId st))) in
  let m1 := match e_lookup k (e_regs st) with
            | Some _ => e_regs st
            | None => app (e_regs st) [(k, [])]
            end in
  mkEmitter (e_update k (fun l => e_sort (app l [r])) m1) (nextHookId st + 1).

(** The listener [setupErrorHandling] adds: it logs and returns
    [undefined]. *)
Definition errorListener : HookFunction D :=
  fun _ => mkRun (Resolved None) Sync.

(** [new HookableEventEmitter()]: an empty [hookRegistrations] and
    [nextHookId = 1], then [setupErrorHandling]'s
    [this.on('error', ...)], whose [registerHook] stores the listener
    under ['error'] with the default priority 100 as [hook-1]. *)
Definition newEmitter : Emitter :=
  e_registerHook ErrorKey (EPlain ErrorListenerFn errorListener) 100 (mkEmitter [] 1).

(** [on(event, hook, priority = 100)]. *)
Definition on (ev : HookEvent) (ref : Z) (f : HookFunction D) (prio : Z)
    (st : Emitter) : Emitter :=
  e_registerHook (HookKey ev) (EPlain (UserFn ref) f) prio st.

(** [once(event, hook, priority = 100)]: [registerHook] of
    [wrappedHook] with [priority], then [super.once(event, wrappedHook)].
    Node's [once] calls [this.on(event, onceWrapper)] with the bound
    [onceWrapper] (state [fired = false]); [this] is the emitter, so
    the overridden [on] registers that function too, with the default
    priority 100, under the next id. *)
Definition once (ev : HookEvent) (f : HookFunction D) (prio : Z)
    (st : Emitter) : Emitter :=
  let n := nextHookId st in
  let st1 := e_registerHook (HookKey ev) (EOnce (WrapperFn n) f) prio st in
  e_registerHook (HookKey ev) (EOnceWrap (OnceWrapFn n) false (WrapperFn n) f) 100 st1.

Fixpoint remove_first_ref (k : FnRef) (l : list EReg) : list EReg :=
  match l with
  | [] => []
  | x :: l' => if FnRef_eqb (ehook_ref (e_hook x)) k then l' else x :: remove_first_ref k l'
  end.

(** [unregisterHook(event, hook)]: [findIndex] by identity, [splice]. *)
Definition e_unregisterHook (ev : HookEvent) (k : FnRef) (st : Emitter) : Emitter :=
  mkEmitter (e_update (HookKey ev) (remove_first_ref k) (e_regs st)) (nextHookId st).

(** [this.fired = true] in the state of the bound [onceWrapper] [k]. *)
Definition e_fire (k : FnRef) (r : EReg) : EReg :=
  match e_hook r with
  | EOnceWrap k' _ t f =>
      if FnRef_eqb k' k then mkEReg (e_event r) (EOnceWrap k' true t f) (e_priority r) (e_id r)
      else r
  | _ => r
  end.

Definition set_fired (ev : HookEvent) (k : FnRef) (st : Emitter) : Emitter :=
  mkEmitter (e_update (HookKey ev) (map (e_fire k)) (e_regs st)) (nextHookId st).

Definition e_live (ev : HookEvent) (st : Emitter) : list EReg :=
  match e_lookup (HookKey ev) (e_regs st) with Some l => l | None => [] end.

(** [registration.hook(currentData, context)] up to the user callback:
    the callback it calls, if any, and the emitter at that point.  The
    bound [onceWrapper] returns [undefined] once fired; before, it
    removes itself from Node's own listener list (not part of
    [hookRegistrations]), sets [fired] and calls [wrappedHook]. *)
Definition e_call (ev : HookEvent) (r : EReg) (st : Emitter)
    : option (HookFunction D) * Emitter :=
  match e_hook r with
  | EPlain _ f => (Some f, st)
  | EOnce k f => (Some f, e_unregisterHook ev k st)
  | EOnceWrap k fired t f =>
      if fired then (None, st)
      else (Some f, e_unregisterHook ev t (set_fired ev k st))
  end.

(** The [catch] block computes [Date.now() - hookStartTime], but
    [hookStartTime] is a [const] of the [try] block, out of scope in
    [catch]: evaluating it throws this [ReferenceError] out of
    [executeHooks]. *)
Definition hookStartTime_error : JsError :=
  mkJsError "ReferenceError" "hookStartTime is not defined".

(** The [for ... of] loop of [executeHooks] over the live array. *)
Fixpoint e_loop (fuel : nat) (ev : HookEvent) (i : nat) (currentData : D)
    (st : Emitter) : (D + JsError) * Emitter :=
  match fuel with
  | O => (inl currentData, st)
  | S fuel' =>
      match nth_error (e_live ev st) i with
      | None => (inl currentData, st)
      | Some r =>
          let '(fo, st1) := e_call ev r st in
          match fo with
          | None => e_loop fuel' ev (S i) currentData st1
          | Some f =>
              match hr_settle (f currentData) with
              | Resolved v =>
                  e_loop fuel' ev (S i)
                    (match v with Some x => x | None => currentData end) st1
              | Rejected _ => (inr hookStartTime_error, st1)
              end
          end
      end
  end.

(** [executeHooks(event, data, context)]. *)
Definition executeHooks (ev : HookEvent) (data : D) (st : Emitter)
    : (D + JsError) * Emitter :=
  match e_lookup (HookKey ev) (e_regs st) with
  | None | Some [] => (inl data, st)
  | Some l => e_loop (List.length l) ev 0 data st
  end.

End Emitter.
Arguments EHook : clear implicits.
Arguments EReg : clear implicits.
Arguments Emitter : clear implicits.

End EmitterModel.

(** ** The rest of StreamBuffer (src/streaming/StreamBuffer.ts) *)
Module StreamBufferOps.
Import StreamBufferModel.

Definition set_active_timer (s : StreamBuffer) (active armed : bool) : StreamBuffer :=
  mkBuffer (sb_id s) (config s) (onFlush s) (chunks s) (createdAt s)
    (lastChunkTime s) armed active (totalChunksAdded s) (totalFlushes s).

(** [resume()]: on an inactive buffer, reactivates it and, for the
    [time] and [hybrid] strategies, starts a new flush timer. *)
Definition resume (s : StreamBuffer) : StreamBuffer :=
  if negb (isActive s) then
    set_active_timer s true (if timed (config s) then true else flushTimerArmed s)
  else s.

(** The [setTimeout] callback of [startFlushTimer], run when the pending
    timer fires: the timer is spent, and [flush('time')] runs when the
    buffer is active and non-empty.  [startFlushTimer] uses [setTimeout],
    not [setInterval]: nothing re-arms the timer once it has fired. *)
Definition fire_flush_timer (s : StreamBuffer) : StreamBuffer :=
  if flushTimerArmed s then
    let s1 := set_active_timer s (isActive s) false in
    if isActive s1 && negb (List.length (chunks s1) =? 0)%nat
    then snd (flush s1) else s1
  else s.

(** [peek()]: a copy of the chunk list. *)
Definition peek (s : StreamBuffer) : list Chunk := chunks s.

(** [getChunkAt(index)]: [this.chunks[index]] for an integer [index]. *)
Definition getChunkAt (s : StreamBuffer) (index : Z) : option Chunk :=
  if index <? 0 then None else nth_error (chunks s) (Z.to_nat index).

(** The start position of [splice(index, 1)] on an array of length
    [len]: a negative index counts from the end; the result is clamped
    to [0, len]. *)
Definition splice_start (len index : Z) : Z :=
  if index <? 0 then Z.max (len + index) 0 else Z.min index len.

(** [removeChunkAt(index)]: [this.chunks.splice(index, 1)[0]]. *)
Definition removeChunkAt (s : StreamBuffer) (index : Z) : option Chunk * StreamBuffer :=
  let start := Z.to_nat (splice_start (Z.of_nat (List.length (chunks s))) index) in
  match nth_error (chunks s) start with
  | Some c =>
      (Some c, set_chunks s (app (firstn start (chunks s)) (skipn (S start) (chunks s))))
  | None => (None, s)
  end.

(** [Partial<StreamBufferConfig>]: [None] is an absent key. *)
Record PartialConfig := mkPartial {
  p_maxSize : option Z;
  p_maxTime : option Z;
  p_strategy : option Strategy;
  p_enableMetrics : option bool
}.

(** [{ ...config, ...newConfig }]. *)
Definition merge_config (c : StreamBufferConfig) (p : PartialConfig) : StreamBufferConfig :=
  mkConfig (match p_maxSize p with Some v => v | None => maxSize c end)
    (match p_maxTime p with Some v => v | None => maxTime c end)
    (match p_strategy p with Some v => v | None => strategy c end)
    (match p_enableMetrics p with Some v => v | None => enableMetrics c end).

(** The [errors] of [BufferFlushEvent.validateBufferConfig(config)]:
    [!config.maxSize || config.maxSize <= 0] is [maxSize <= 0] on an
    integer, likewise for [maxTime]; the strategy and [enableMetrics]
    checks pass on every value of the typed configuration. *)
Definition validateBufferConfig (c : StreamBufferConfig) : list string :=
  app (if maxSize c <=? 0 then ["maxSize must be greater than 0"] else [])
      (if maxTime c <=? 0 then ["maxTime must be greater than 0"] else []).

(** [Array.prototype.join(sep)]. *)
Fixpoint join (sep : string) (l : list string) : string :=
  match l with
  | [] => ""
  | [x] => x
  | x :: l' => String.append x (String.append sep (join sep l'))
  end.

(** [updateConfig(newConfig)]: validate the merged configuration, throw
    on errors; otherwise assign it and, when the strategy or [maxTime]
    changed, restart the timer for [time] and [hybrid] or clear it. *)
Definition updateConfig (s : StreamBuffer) (p : PartialConfig)
    : option JsError * StreamBuffer :=
  let merged := merge_config (config s) p in
  match validateBufferConfig merged with
  | (_ :: _) as errs =>
      (Some (Error (String.append "Invalid buffer configuration: " (join ", " errs))), s)
  | [] =>
      let oldConfig := config s in
      let changed := negb (Strategy_eqb (strategy oldConfig) (strategy merged))
                     || negb (maxTime oldConfig =? maxTime merged) in
      let armed := if changed then timed merged else flushTimerArmed s in
      (None, mkBuffer (sb_id s) merged (onFlush s) (chunks s) (createdAt s)
               (lastChunkTime s) armed (isActive s) (totalChunksAdded s)
               (totalFlushes s))
  end.

(** Calls a caller can make on a buffer (and the timer or the event
    loop running its callbacks), short of [resume] and [updateConfig]. *)
Inductive BufferOp :=
| OpAddChunk (c : Chunk) (now : Z)
| OpAddChunks (cs : list Chunk) (now : Z)
| OpFlush
| OpClear
| OpPause
| OpFireTimer
| OpRunTask (t : Task).

Definition run_op (o : BufferOp) (s : StreamBuffer) : StreamBuffer :=
  match o with
  | OpAddChunk c now => snd (fst (addChunk s c now))
  | OpAddChunks cs now => snd (fst (addChunks s cs now))
  | OpFlush => snd (flush s)
  | OpClear => snd (clear s)
  | OpPause => pause s
  | OpFireTimer => fire_flush_timer s
  | OpRunTask t => run_task t s
  end.

Fixpoint run_ops (os : list BufferOp) (s : StreamBuffer) : StreamBuffer :=
  match os with
  | [] => s
  | o :: os' => run_ops os' (run_op o s)
  end.

End StreamBufferOps.

(** ** The rest of BufferManager (src/streaming/BufferManager.ts) *)
Module BufferManagerOps.
Import StreamBufferModel StreamBufferOps BufferManagerModel.

(** The manager with its two counters. *)
Record ManagerState := mkState {
  mgr : BufferManager;
  totalChunksProcessed : Z;
  bm_totalFlushes : Z
}.

Definition with_mgr (st : ManagerState) (m : BufferManager) : ManagerState :=
  mkState m (totalChunksProcessed st) (bm_totalFlushes st).

(** [Map.prototype.get]. *)
Fixpoint map_get (k : string) (m : list (string * BufferInfo)) : option BufferInfo :=
  match m with
  | [] => None
  | (k', v) :: m' => if String.eqb k' k then Some v else map_get k m'
  end.

(** [Map.prototype.delete]. *)
Definition map_delete (k : string) (m : list (string * BufferInfo))
    : list (string * BufferInfo) :=
  filter (fun e => negb (String.eqb (fst e) k)) m.

(** A [BufferInfo] holds its [StreamBuffer] by reference: a call on the
    buffer is seen through the map entry. *)
Definition store_buffer (m : BufferManager) (bufferId : string) (b : StreamBuffer)
    : BufferManager :=
  match map_get bufferId (buffers m) with
  | Some info =>
      mkManager (bm_config m)
        (map_set bufferId (mkInfo (bi_id info) b (bi_createdAt info) (bi_lastActivity info))
           (buffers m))
  | None => m
  end.

(** [getBuffer(bufferId)] at clock reading [now]. *)
Definition getBuffer (m : BufferManager) (bufferId : string) (now : Z)
    : option StreamBuffer * BufferManager :=
  match map_get bufferId (buffers m) with
  | Some info =>
      (Some (bi_buffer info),
       mkManager (bm_config m)
         (map_set bufferId (mkInfo (bi_id info) (bi_buffer info) (bi_createdAt info) now)
            (buffers m)))
  | None => (None, m)
  end.

(** The return value of the manager's [addChunk]. *)
Record ManagerAddResult := mkMAdd {
  ma_success : bool;
  ma_shouldFlush : option bool;
  ma_flushReason : option FlushReason;
  ma_bufferId : option string
}.

(** [addChunk(bufferId, chunk, {createIfNotExists, bufferConfig})]: the
    result, the manager, and the callbacks the buffer queued. *)
Definition mgr_addChunk (st : ManagerState) (bufferId : string) (chunk : Chunk)
    (createIfNotExists : bool) (bufferConfig : option StreamBufferConfig) (now : Z)
    : ManagerAddResult * ManagerState * list Task :=
  let fail := mkMAdd false None None None in
  let add (b : StreamBuffer) (m : BufferManager) :=
    let '(r, b', ts) := addChunk b chunk now in
    (mkMAdd true (Some (shouldFlush r)) (flushReason r) (Some bufferId),
     mkState (store_buffer m bufferId b') (totalChunksProcessed st + 1)
       (bm_totalFlushes st),
     ts) in
  let '(ob, m1) := getBuffer (mgr st) bufferId now in
  match ob with
  | Some b => add b m1
  | None =>
      if createIfNotExists then
        match createBuffer m1 bufferId bufferConfig None now with
        | (inl b, m2) => add b m2
        | (inr _, m2) => (fail, with_mgr st m2, [])
        end
      else (fail, with_mgr st m1, [])
  end.

(** [removeBuffer(bufferId)]: destroys the buffer (its remaining chunks
    are discarded) and deletes the entry. *)
Definition removeBuffer (m : BufferManager) (bufferId : string) : bool * BufferManager :=
  match map_get bufferId (buffers m) with
  | None => (false, m)
  | Some _ => (true, mkManager (bm_config m) (map_delete bufferId (buffers m)))
  end.

Definition not_found_error (bufferId : string) : JsError :=
  Error (String.append "Buffer " (String.append dq
    (String.append bufferId (String.append dq " not found")))).

(** [flushBuffer(bufferId, reason)] when nothing else runs during its
    [await]. *)
Definition flushBuffer (st : ManagerState) (bufferId : string) (now : Z)
    : (list Chunk + JsError) * ManagerState :=
  let '(ob, m1) := getBuffer (mgr st) bufferId now in
  match ob with
  | None => (inr (not_found_error bufferId), with_mgr st m1)
  | Some b =>
      let '(out, b') := flush b in
      let m2 := store_buffer m1 bufferId b' in
      match out with
      | inl cs => (inl cs, mkState m2 (totalChunksProcessed st) (bm_totalFlushes st + 1))
      | inr e => (inr e, with_mgr st m2)
      end
  end.

(** One element of the array [flushAllBuffers] returns. *)
Record FlushAllEntry := mkFlushAll {
  fa_bufferId : string;
  fa_chunks : list Chunk;
  fa_error : option JsError
}.

(** The [for ... of this.buffers.entries()] loop of [flushAllBuffers]:
    the results, the entries with their flushed buffers, and the number
    of successful flushes. *)
Fixpoint flush_entries (es : list (string * BufferInfo))
    : list FlushAllEntry * list (string * BufferInfo) * Z :=
  match es with
  | [] => ([], [], 0)
  | (id, info) :: rest =>
      let '(out, b') := flush (bi_buffer info) in
      let e' := (id, mkInfo (bi_id info) b' (bi_createdAt info) (bi_lastActivity info)) in
      let '(rs, es', n) := flush_entries rest in
      match out with
      | inl cs => (mkFlushAll id cs None :: rs, e' :: es', n + 1)
      | inr err => (mkFlushAll id [] (Some err) :: rs, e' :: es', n)
      end
  end.

(** [flushAllBuffers(reason)], each [await] running to completion. *)
Definition flushAllBuffers (st : ManagerState) : list FlushAllEntry * ManagerState :=
  let '(rs, es', n) := flush_entries (buffers (mgr st)) in
  (rs, mkState (mkManager (bm_config (mgr st)) es') (totalChunksProcessed st)
         (bm_totalFlushes st + n)).

Definition map_buffers (f : StreamBuffer -> StreamBuffer) (m : BufferManager)
    : BufferManager :=
  mkManager (bm_config m)
    (map (fun e => (fst e, mkInfo (bi_id (snd e)) (f (bi_buffer (snd e)))
                            (bi_createdAt (snd e)) (bi_lastActivity (snd e))))
       (buffers m)).

(** [pauseAll()] and [resumeAll()]. *)
Definition pauseAll (m : BufferManager) : BufferManager := map_buffers pause m.
Definition resumeAll (m : BufferManager) : BufferManager := map_buffers resume m.

(** [destroyAll()]: the remaining chunks of every buffer, in [Map]
    order; the map is cleared. *)
Definition destroyAll (m : BufferManager) : list (list Chunk) * BufferManager :=
  (map (fun e => fst (destroy (bi_buffer (snd e)))) (buffers m),
   mkManager (bm_config m) []).

End BufferManagerOps.

(** ** Priority-ordered arrays, shared by the two registries *)
Module SortedLists.

Section Generic.
Context {A : Type} (p : A -> Z).

(** Non-decreasing [p] along a list. *)
Fixpoint sorted_by (l : list A) : bool :=
  match l with
  | x :: ((y :: _) as l') => (p x <=? p y) && sorted_by l'
  | _ => true
  end.

(** Insertion after every element whose key is not larger. *)
Fixpoint insert_by (r : A) (l : list A) : list A :=
  match l with
  | [] => [r]
  | x :: l' => if p r <? p x then r :: x :: l' else x :: insert_by r l'
  end.

(** [findIndex(test)] followed by [splice(index, 1)]. *)
Fixpoint remove_first_by (test : A -> bool) (l : list A) : list A :=
  match l with
  | [] => []
  | x :: l' => if test x then l' else x :: remove_first_by test l'
  end.

End Generic.

End SortedLists.

(** ** The rest of HookManager (src/core/HookManager.ts) *)
Module HookManagerOps.
Import HookManagerModel.

Section Ops.
Context {D : Type}.

(** [registerGlobalHook(hook, priority)]: [registerHook('message:before',
    hook, {priority})] with the generated id; the [globalHooks] set it
    also fills is never read by a dispatch. *)
Definition registerGlobalHook (f : HookFunction D) (prio : Z) (id : string)
    (reg : Registry D) : string * Registry D :=
  registerHook MessageBefore f prio id None reg.

(** [clearAllHooks()]. *)
Definition clearAllHooks (reg : Registry D) : Registry D := [].

(** Non-decreasing priorities along an array. *)
Definition prio_sorted (l : list (PriorityHookRegistration D)) : bool :=
  SortedLists.sorted_by priority l.

Definition registry_sorted (reg : Registry D) : bool :=
  forallb (fun e => prio_sorted (snd e)) reg.

(** The calls that change the registry. *)
Inductive HookOp :=
| HRegister (ev : HookEvent) (f : HookFunction D) (prio : Z) (id : string) (tmo : option Z)
| HRegisterOnce (ev : HookEvent) (f : HookFunction D) (prio : Z) (id : string)
    (tmo : option Z)
| HRegisterGlobal (f : HookFunction D) (prio : Z) (id : string)
| HUnregister (id : string)
| HDispatch (ev : HookEvent) (data : D)
| HClear.

Definition run_hook_op (o : HookOp) (reg : Registry D) : Registry D :=
  match o with
  | HRegister ev f prio id tmo => snd (registerHook ev f prio id tmo reg)
  | HRegisterOnce ev f prio id tmo => snd (registerOneTimeHook ev f prio id tmo reg)
  | HRegisterGlobal f prio id => snd (registerGlobalHook f prio id reg)
  | HUnregister id => snd (unregisterHookById id reg)
  | HDispatch ev data => snd (executeHooksWithMonitoring ev data reg)
  | HClear => clearAllHooks reg
  end.

Fixpoint run_hook_ops (os : list HookOp) (reg : Registry D) : Registry D :=
  match os with
  | [] => reg
  | o :: os' => run_hook_ops os' (run_hook_op o reg)
  end.

(** The payload after a registration's callback, awaited without a
    timer: its value, unless it resolves to [undefined] or rejects. *)
Definition plain_step (r : PriorityHookRegistration D) (data : D) : D :=
  match hr_settle (hook_fn (hook r) data) with
  | Resolved (Some x) => x
  | _ => data
  end.

End Ops.
Arguments HookOp : clear implicits.

End HookManagerOps.

(** ** The rest of HookableEventEmitter (src/core/EventEmitter.ts) *)
Module EmitterOps.
Import EmitterModel.

Section Ops.
Context {D : Type}.



(** The user callback of a registration. *)
Definition e_fn (h : EHook D) : HookFunction D :=
  match h with EPlain _ f | EOnce _ f | EOnceWrap _ _ _ f => f end.

(** One step of the payload through a registration's callback. *)
Definition e_step (r : EReg D) (d : D) : D :=
  match hr_settle (e_fn (e_hook r) d) with
  | Resolved (Some x) => x
  | _ => d
  end.

Definition is_plain (r : EReg D) : bool :=
  match e_hook r with EPlain _ _ => true | _ => false end.


End Ops.

End EmitterOps.

(** ** Concrete inputs used by the statements below *)
Module Fixtures.
Import StreamBufferModel BufferManagerModel HookManagerModel EmitterModel.

Definition cfg_size3 : StreamBufferConfig := mkConfig 3 1000 Size true.
Definition cfg_time : StreamBufferConfig := mkConfig 10 1000 Time true.
Definition cfg_time1 : StreamBufferConfig := mkConfig 1 1000 Time true.
Definition cfg_size1 : StreamBufferConfig := mkConfig 1 1000 Size true.

Definition chunk_a : Chunk := mkChunk "c1" "a" 0.
Definition chunk_b : Chunk := mkChunk "c2" "b" 1.
Definition chunk_c : Chunk := mkChunk "c3" "c" 2.


Definition hX : HookFunction string :=
  fun d => mkRun (Resolved (Some (String.append d "X"))) Sync.
Definition hY : HookFunction string :=
  fun d => mkRun (Resolved (Some (String.append d "Y"))) Sync.
Definition hThrow : HookFunction string :=
  fun _ => mkRun (Rejected (Error "boom")) Sync.
(** [await]s a 50 ms [setTimeout], then returns ["late"]. *)
Definition hLate : HookFunction string :=
  fun _ => mkRun (Resolved (Some "late")) (After 50).

(** A one-shot hook ["a"] (priority 1), then a hook ["b"] (priority 2). *)
Definition reg_once_then_plain (f : HookFunction string) : Registry string :=
  snd (registerHook MessageBefore hY 2 "b" None
    (snd (registerOneTimeHook MessageBefore f 1 "a" None []))).

(** [h1] appends X with priority 0, [h2] appends Y with priority 50. *)
Definition reg_h1_h2 : Registry string :=
  snd (registerHook MessageBefore hY 50 "h2" None
    (snd (registerHook MessageBefore hX 0 "h1" None []))).

Definition em_h1_h2 : Emitter string :=
  on MessageBefore 2 hY 50 (on MessageBefore 1 hX 0 newEmitter).

Definition em_once_then_plain : Emitter string :=
  on MessageBefore 2 hY 2 (once MessageBefore hX 1 newEmitter).

Definition em_throw_then_plain : Emitter string :=
  on MessageBefore 2 hY 2 (on MessageBefore 1 hThrow 1 newEmitter).

(** A hook with [timeoutMs = 10] that waits 50 ms, then [hX]. *)
Definition reg_timeout : Registry string :=
  snd (registerHook MessageBefore hX 2 "next" None
    (snd (registerHook MessageBefore hLate 1 "slow" (Some 10) []))).

(** The registration [reg_timeout] starts with. *)
Definition slow_registration : PriorityHookRegistration string :=
  mkReg (Plain hLate) 1 "slow" false (Some 10).

Definition mgr_cfg : BufferManagerConfig :=
  mkManagerConfig cfg_size3 1 true 300000.

(** One buffer created at 0 and last used at 400000. *)
Definition mgr_one_active : BufferManager :=
  mkManager mgr_cfg
    [("b1", mkInfo "b1" (newStreamBuffer "b1" cfg_size3 None 0) 0 400000)].

End Fixtures.

(** * Properties of the streaming buffers *)
Section BufferProperties.
Import StreamBufferModel BufferManagerModel Fixtures.


Lemma shouldFlush_check_time (s : StreamBuffer) (now : Z) :
  strategy (config s) = Time ->
  shouldFlush_check s now =
    if maxSize (config s) <=? Z.of_nat (List.length (chunks s))
    then (true, Some RSize)
    else if maxTime (config s) <=? now - createdAt s
    then (true, Some RTime) else (false, None).
Proof.
  intros Hs. unfold shouldFlush_check. rewrite Hs. simpl.
  destruct (_ <=? _); [reflexivity|].
  destruct (_ <=? _); reflexivity.
Qed.

(** C10: on a paused or destroyed buffer ([isActive] false, which
    [pause] and [destroy] both produce), [addChunk] and [addChunks]
    return [{shouldFlush: false, bufferedChunks: 0}], queue nothing and
    leave the whole buffer state unchanged: the chunks are dropped. *)
Theorem inactive_buffer_drops_chunks (s : StreamBuffer) (c : Chunk)
    (cs : list Chunk) (now : Z) :
  isActive s = false ->
  addChunk s c now = (mkAddResult false None 0, s, []) /\
  addChunks s cs now = (mkAddResult false None 0, s, []) /\
  isActive (pause s) = false /\ isActive (snd (destroy s)) = false.
Proof.
  intros H. unfold addChunk, addChunks. rewrite H. simpl.
  repeat split.
Qed.


(** C2 (counterexample): a [time] buffer with [maxSize = 1] signals a
    flush (reason [size]) on its first chunk, 1 ms after creation; and
    after a flush has emptied a [time] buffer, a chunk added 1 ms later
    signals a [time] flush, the age being measured from the buffer's
    creation, not from the oldest unflushed chunk. *)
Lemma time_strategy_flush_counterexample :
  (let b0 := newStreamBuffer "t" cfg_time1 None 0 in
   let '(r, _, _) := addChunk b0 chunk_a 1 in
   shouldFlush r = true /\ flushReason r = Some RSize /\
   1 - createdAt b0 < maxTime cfg_time1) /\
  (let b0 := newStreamBuffer "t" cfg_time None 0 in
   let '(_, b1, _) := addChunk b0 chunk_a 2000 in
   let b2 := snd (flush b1) in
   let '(r2, _, _) := addChunk b2 chunk_b 2001 in
   chunks b2 = [] /\ shouldFlush r2 = true /\ flushReason r2 = Some RTime).
Proof. vm_compute. repeat split. Qed.

(** C2 (amended): under strategy [time], [addChunk] on an active buffer
    signals a flush exactly when the post-append count reaches
    [maxSize] (reason [size]) or [now - createdAt >= maxTime] (reason
    [time]); [createdAt] is the construction time, which neither
    [addChunk] nor [flush] (on either of its paths) ever resets. *)
Theorem time_strategy_flush_predicate (s : StreamBuffer) (c : Chunk) (now : Z) :
  isActive s = true -> strategy (config s) = Time ->
  (let '(r, s', _) := addChunk s c now in
   shouldFlush r =
     (maxSize (config s) <=? Z.of_nat (List.length (chunks s)) + 1)
     || (maxTime (config s) <=? now - createdAt s) /\
   flushReason r =
     (if maxSize (config s) <=? Z.of_nat (List.length (chunks s)) + 1 then Some RSize
      else if maxTime (config s) <=? now - createdAt s then Some RTime else None) /\
   createdAt s' = createdAt s) /\
  createdAt (snd (flush s)) = createdAt s /\
  (forall o, createdAt (snd (flush_resume s o)) = createdAt s).
Proof.
  intros Hact Hstr. split; [|split].
  - unfold addChunk. rewrite Hact. simpl.
    rewrite shouldFlush_check_time by (simpl; exact Hstr). simpl.
    rewrite length_app, Nat2Z.inj_add. simpl.
    destruct (maxSize (config s) <=? _); [repeat split|].
    destruct (maxTime (config s) <=? _); repeat split.
  - unfold flush. destruct (flush_begin s); [reflexivity|].
    destruct outcome; reflexivity.
  - intros o. destruct o; reflexivity.
Qed.

(** C3 (counterexample): with [maxSize = 1], [addChunk] queues its own
    [setImmediate] flush; once the event loop runs it, the chunk list is
    empty although no caller ever called [flush]. *)
Lemma addChunk_queues_own_flush :
  let '(r, s1, ts) := addChunk (newStreamBuffer "s" cfg_size1 None 0) chunk_a 1 in
  shouldFlush r = true /\ ts = [ImmediateFlush RSize] /\
  chunks s1 = [chunk_a] /\ chunks (run_tasks ts s1) = [].
Proof. vm_compute. repeat split. Qed.

(** C3 (amended): on an active buffer, [addChunk] appends the chunk,
    sets [lastChunkTime] to now, counts it, evaluates the flush
    predicate on the new state and returns it as the hint; it does not
    drain the chunk list itself, but when the hint is true it queues
    one [setImmediate] flush with that reason, and nothing otherwise. *)
Theorem addChunk_appends_and_queues (s : StreamBuffer) (c : Chunk) (now : Z) :
  isActive s = true ->
  let '(r, s', ts) := addChunk s c now in
  chunks s' = app (chunks s) [c] /\ lastChunkTime s' = now /\
  totalChunksAdded s' = totalChunksAdded s + 1 /\
  createdAt s' = createdAt s /\ totalFlushes s' = totalFlushes s /\
  (shouldFlush r, flushReason r) = shouldFlush_check s' now /\
  bufferedChunks r = Z.of_nat (List.length (chunks s')) /\
  ts = match shouldFlush r, flushReason r with
       | true, Some rr => [ImmediateFlush rr]
       | _, _ => []
       end.
Proof.
  intros Hact. unfold addChunk. rewrite Hact. simpl.
  destruct (shouldFlush_check _ now) as [sf rs] eqn:E.
  repeat split; try reflexivity. rewrite E. reflexivity.
Qed.

(** C7 (counterexample): a buffer holding a chunk and then paused is
    non-empty, yet [flush] returns [[]] and leaves the chunk in place. *)
Lemma flush_inactive_keeps_chunks :
  let s := pause (snd (fst (addChunk (newStreamBuffer "p" cfg_size3 None 0) chunk_a 1))) in
  chunks s = [chunk_a] /\ flush s = (inl [], s) /\ chunks (snd (flush s)) = [chunk_a].
Proof. vm_compute. repeat split. Qed.

(** C7 (amended): [flush] on an active non-empty buffer copies the
    chunk list and awaits the pipeline; whenever the pipeline settles,
    successfully or with an error, the chunk list is then empty and a
    second [flush] returns [[]]; on an error the error is rethrown and
    nothing is requeued.  [flush] on an inactive buffer returns [[]]
    and changes nothing. *)
Theorem flush_empties_buffer (s : StreamBuffer) :
  isActive s = true -> chunks s <> [] ->
  (exists o, flush_begin s = FlushAwaiting (chunks s) o) /\
  (forall s_mid o,
      chunks (snd (flush_resume s_mid o)) = [] /\
      fst (flush (snd (flush_resume s_mid o))) = inl []) /\
  (forall s_mid e, flush_resume s_mid (FlushErr e) = (inr e, set_chunks s_mid [])) /\
  (forall s', isActive s' = false -> flush s' = (inl [], s')).
Proof.
  intros Hact Hne. split; [|split; [|split]].
  - unfold flush_begin. rewrite Hact. simpl.
    destruct (chunks s) eqn:E; [contradiction|]. simpl. eauto.
  - intros s_mid o. destruct o; split; try reflexivity;
      unfold flush, flush_begin; simpl; rewrite orb_true_r; reflexivity.
  - reflexivity.
  - intros s' H. unfold flush, flush_begin. rewrite H. reflexivity.
Qed.

Lemma map_has_filter (k : string) (p : string * BufferInfo -> bool)
    (l : list (string * BufferInfo)) :
  map_has k l = false -> map_has k (filter p l) = false.
Proof.
  unfold map_has. induction l as [|e l IH]; simpl; [reflexivity|].
  intros H. apply orb_false_iff in H as [H1 H2].
  destruct (p e); simpl; [rewrite H1|]; auto.
Qed.

Lemma map_set_absent (k : string) (v : BufferInfo) (l : list (string * BufferInfo)) :
  map_has k l = false -> map_set k v l = app l [(k, v)].
Proof. intros H. unfold map_set. rewrite H. reflexivity. Qed.

(** C9 (counterexample): with [maxBuffers = 1] and [cleanupAge =
    300000], a buffer created at 0 but used 1 ms ago is still evicted
    by the pass, so creating a second buffer does not fail with the
    capacity error; and a buffer idle for 200000 ms, less than the
    cleanup age, is evicted as well. *)
Lemma create_evicts_recently_used_buffer :
  (let '(out, m') := createBuffer mgr_one_active "b2" None None 400001 in
   400001 - 400000 <= cleanupAge mgr_cfg /\
   out <> inr (capacity_error "b2" 1) /\ map fst (buffers m') = ["b2"]) /\
  (let m := mkManager mgr_cfg
              [("b1", mkInfo "b1" (newStreamBuffer "b1" cfg_size3 None 0) 0 0)] in
   let '(out, m') := createBuffer m "b2" None None 200000 in
   200000 - 0 <= cleanupAge mgr_cfg /\
   out <> inr (capacity_error "b2" 1) /\ map fst (buffers m') = ["b2"]).
Proof.
  vm_compute. split; (split; [discriminate|split; [discriminate|reflexivity]]).
Qed.

(** C9 (amended): [createBuffer] with an existing id throws the
    duplicate error and changes nothing.  Otherwise, when the map holds
    [maxBuffers] buffers or more, one cleanup pass first drops every
    buffer older than [cleanupAge] or idle for more than [cleanupAge /
    2]; the call throws the capacity error exactly when the remaining
    buffers still number [maxBuffers] or more, and then keeps only
    them; else the new buffer is appended to the remaining ones. *)
Theorem createBuffer_capacity (m : BufferManager) (bufferId : string)
    (cfg : option StreamBufferConfig) (h : option (list Chunk -> FlushOutcome))
    (now : Z) :
  let mb := maxBuffers (bm_config m) in
  let ca := cleanupAge (bm_config m) in
  let '(out, m') := createBuffer m bufferId cfg h now in
  (map_has bufferId (buffers m) = true ->
     out = inr (duplicate_error bufferId) /\ m' = m) /\
  (map_has bufferId (buffers m) = false ->
     let survivors :=
       if mb <=? map_size (buffers m)
       then filter (fun e => negb (evicted ca now (snd e))) (buffers m)
       else buffers m in
     (out = inr (capacity_error bufferId mb) <-> mb <= map_size survivors) /\
     (mb <= map_size survivors -> buffers m' = survivors) /\
     (map_size survivors < mb ->
        buffers m' = app survivors
          [(bufferId, mkInfo bufferId
             (newStreamBuffer bufferId
                (match cfg with Some c => c | None => defaultBufferConfig (bm_config m) end)
                h now) now now)])).
Proof.
  cbv zeta. unfold createBuffer.
  destruct (map_has bufferId (buffers m)) eqn:Hh.
  - split; [intros _; split; reflexivity | intros H; discriminate].
  - unfold setupBufferEventListeners.
    destruct (maxBuffers (bm_config m) <=? map_size (buffers m)) eqn:Hc.
    + cbn [cleanup snd buffers].
      set (sv := filter _ (buffers m)).
      destruct (maxBuffers (bm_config m) <=? map_size sv) eqn:Hc2.
      * apply Z.leb_le in Hc2. cbv beta iota.
        split; [intros H; discriminate|]. intros _.
        split; [split; auto|]. split; [reflexivity|intros; lia].
      * apply Z.leb_gt in Hc2. cbv beta iota.
        split; [intros H; discriminate|]. intros _.
        rewrite map_set_absent by (apply map_has_filter; exact Hh).
        split; [split; [discriminate|intros; lia]|].
        split; [intros; lia|reflexivity].
    + apply Z.leb_gt in Hc. cbv beta iota.
      split; [intros H; discriminate|]. intros _.
      rewrite map_set_absent by exact Hh.
      split; [split; [discriminate|intros; lia]|].
      split; [intros; lia|reflexivity].
Qed.

End BufferProperties.

(** * Properties of the hook dispatchers *)
Section HookProperties.
Import HookManagerModel EmitterModel Fixtures.

(** C1: dispatch does not run on a snapshot of the registrations.  With
    a one-shot hook ["a"] (priority 1) and a hook ["b"] (priority 2),
    both registered when the dispatch starts, the one-shot wrapper
    splices ["a"] out of the array being iterated, the iterator's next
    position is past the end, and ["b"] is skipped: the report shows
    only ["a"] out of [hookCount = 2].  In [HookableEventEmitter]
    (constructed, so [hook-1] is its error listener), [once] with
    priority 1 adds [wrappedHook] as [hook-2] and Node's bound
    [onceWrapper] as [hook-3] (priority 100); [on] with priority 2 adds
    [hook-4].  The dispatch runs [hook-2], which splices itself out, so
    position 1 is then [hook-3], which calls the callback a second
    time: the payload is ["XX"] and [hook-4] is skipped. *)
Theorem once_hook_skips_next_hook :
  map reg_id (live MessageBefore (reg_once_then_plain hX)) = ["a"; "b"] /\
  (let '(res, reg') := executeHooksWithMonitoring MessageBefore "" (reg_once_then_plain hX) in
   reported_ids res = ["a"] /\ hookCount res = 2%nat /\ modifiedData res = "X" /\
   map reg_id (live MessageBefore reg') = ["b"]) /\
  map e_id (e_live MessageBefore em_once_then_plain) = ["hook-2"; "hook-4"; "hook-3"] /\
  (let '(out, st') := executeHooks MessageBefore "" em_once_then_plain in
   out = inl "XX" /\ map e_id (e_live MessageBefore st') = ["hook-4"; "hook-3"]).
Proof. vm_compute. repeat split. Qed.

(** C4: [HookableEventEmitter.executeHooks], the dispatcher of the
    message, chunk and buffer events, does not isolate a failing hook:
    its [catch] block reads the out-of-scope [hookStartTime] and the
    dispatch rejects with a [ReferenceError] before the next hook runs.
    In [HookManager], a failing one-shot hook unregisters itself and
    the next hook is skipped; a failing plain hook is isolated. *)
Theorem failing_hook_not_isolated :
  fst (executeHooks MessageBefore "" em_throw_then_plain) = inr hookStartTime_error /\
  (let '(res, _) := executeHooksWithMonitoring MessageBefore "" (reg_once_then_plain hThrow) in
   map he_hookId (errors res) = ["a"] /\ executedHooks res = [] /\ modifiedData res = "") /\
  (let reg := snd (registerHook MessageBefore hY 2 "b" None
                 (snd (registerHook MessageBefore hThrow 1 "a" None []))) in
   let '(res, _) := executeHooksWithMonitoring MessageBefore "" reg in
   map he_hookId (errors res) = ["a"] /\ map eh_hookId (executedHooks res) = ["b"] /\
   modifiedData res = "Y").
Proof. vm_compute. repeat split. Qed.

(** C5: [HookableEventEmitter.registerHook] stores [priority || 100],
    so priority 0 becomes 100: [h1] (priority 0, appends X) and [h2]
    (priority 50, appends Y) run as [h2], [h1] and the payload ends as
    ["YX"]; [HookManager.registerHook] keeps 0 and yields ["XY"]. *)
Theorem zero_priority_runs_last :
  map e_priority (e_live MessageBefore em_h1_h2) = [50; 100] /\
  fst (executeHooks MessageBefore "" em_h1_h2) = inl "YX" /\
  modifiedData (fst (executeHooksWithMonitoring MessageBefore "" reg_h1_h2)) = "XY".
Proof. vm_compute. repeat split. Qed.

(** C6 (counterexample): a hook with [timeoutMs = 10] that waits 50 ms
    (a later timer) and returns ["late"] is recorded as failed with a
    plain [Error] (name ["Error"], not a [TimeoutError]); its value is
    discarded and the next hook gets the original payload. *)
Lemma timeout_error_is_plain_error :
  let '(res, _) := executeHooksWithMonitoring MessageBefore "" reg_timeout in
  map he_hookId (errors res) = ["slow"] /\
  map (fun e => err_name (he_error e)) (errors res) = ["Error"] /\
  map (fun e => err_message (he_error e)) (errors res)
    = ["Hook execution timed out after 10ms"] /\
  modifiedData res = "X".
Proof. vm_compute. repeat split. Qed.

(** C6 (amended): let the registration at the iterator's position have
    a non-zero [timeout].  When its callback's promise settles in a
    later macrotask after the timer delay, the dispatch appends to
    [errors] a plain [Error] with message
    [Hook execution timed out after <timeout>ms], leaves
    [executedHooks], [modifiedData] and the registry as they were, and
    goes on to the next position with the payload the timed-out hook
    received; a one-shot wrapper's self-unregistration is deferred to
    its late settlement.  When the callback returns or throws
    synchronously (or settles through microtasks only), the timer
    never wins, however long the callback runs: the call behaves as
    with no timeout. *)
Theorem timed_out_hook_keeps_payload {D : Type} (fuel : nat) (ev : HookEvent)
    (i : nat) (data : D) (res : HookExecutionResult) (reg : Registry D)
    (late : list string) (r : PriorityHookRegistration D) (t : Z) :
  nth_error (live ev reg) i = Some r ->
  timeout r = Some t -> t <> 0 ->
  (forall d, hr_timing (hook_fn (hook r) data) = After d -> timer_delay t < d ->
   dispatch_loop (S fuel) ev i data res reg late =
   dispatch_loop fuel ev (S i) data
     (mkResult (success res) (executedHooks res)
        (app (errors res) [mkHookError (reg_id r) ev (timeout_error t)])
        (modifiedData res) (hookCount res))
     reg (app late (wrapper_ids (hook r)))) /\
  (hr_timing (hook_fn (hook r) data) = Sync ->
   invoke r data reg = invoke (mkReg (hook r) (priority r) (reg_id r) (oneTime r) None) data reg).
Proof.
  intros Hr Ht Hnz. split.
  - intros d Hdt Hd. simpl. rewrite Hr.
    unfold run_registration, invoke. rewrite Ht.
    destruct (t =? 0) eqn:E; [apply Z.eqb_eq in E; contradiction|].
    cbv zeta. rewrite Hdt.
    replace (timer_delay t <=? d) with true by (symmetry; apply Z.leb_le; lia).
    reflexivity.
  - intros Hs. unfold invoke. rewrite Ht. cbv zeta. simpl (timeout _). simpl (hook _).
    destruct (t =? 0); [reflexivity|]. rewrite Hs. reflexivity.
Qed.

End HookProperties.

(** * Further properties of StreamBuffer *)
Section StreamBufferFacts.
Import StreamBufferModel StreamBufferOps.

Lemma addChunk_active_state (s : StreamBuffer) (c : Chunk) (now : Z) :
  isActive s = true ->
  snd (fst (addChunk s c now)) =
  mkBuffer (sb_id s) (config s) (onFlush s) (app (chunks s) [c]) (createdAt s) now
    (flushTimerArmed s) (isActive s) (totalChunksAdded s + 1) (totalFlushes s).
Proof.
  intros H. unfold addChunk. rewrite H. simpl.
  destruct (shouldFlush_check _ now) as [sf [rr|]]; destruct sf; reflexivity.
Qed.

Lemma addChunk_active_hint (s : StreamBuffer) (c : Chunk) (now : Z) :
  isActive s = true ->
  (shouldFlush (fst (fst (addChunk s c now))), flushReason (fst (fst (addChunk s c now))))
  = shouldFlush_check (snd (fst (addChunk s c now))) now.
Proof.
  intros H. unfold addChunk. rewrite H. simpl.
  destruct (shouldFlush_check _ now) as [sf [rr|]] eqn:E; destruct sf; simpl; rewrite E; reflexivity.
Qed.

Lemma addChunks_active_hint (s : StreamBuffer) (cs : list Chunk) (now : Z) :
  isActive s = true ->
  (shouldFlush (fst (fst (addChunks s cs now))), flushReason (fst (fst (addChunks s cs now))))
  = shouldFlush_check (snd (fst (addChunks s cs now))) now.
Proof.
  intros H. unfold addChunks. rewrite H. simpl.
  destruct (shouldFlush_check _ now) as [sf [rr|]] eqn:E; destruct sf; simpl; rewrite E; reflexivity.
Qed.

Lemma fold_addChunk_state (cs : list Chunk) (s : StreamBuffer) (now : Z) :
  isActive s = true ->
  let s' := fold_left (fun acc x => snd (fst (addChunk acc x now))) cs s in
  isActive s' = true /\ sb_id s' = sb_id s /\ config s' = config s /\
  onFlush s' = onFlush s /\ chunks s' = app (chunks s) cs /\
  createdAt s' = createdAt s /\ flushTimerArmed s' = flushTimerArmed s /\
  totalChunksAdded s' = totalChunksAdded s + Z.of_nat (List.length cs) /\
  totalFlushes s' = totalFlushes s.
Proof.
  revert s. induction cs as [|c cs IH]; intros s H; simpl.
  - rewrite app_nil_r. repeat split; try assumption; lia.
  - assert (H1 : isActive (snd (fst (addChunk s c now))) = true)
      by (rewrite addChunk_active_state by exact H; exact H).
    destruct (IH _ H1) as (Ha & Hi & Hc & Ho & Hch & Hcr & Ht & Htot & Hf).
    rewrite addChunk_active_state in * by exact H.
    simpl in *. repeat split; try assumption.
    + rewrite Hch, <- app_assoc. reflexivity.
    + rewrite Htot. lia.
Qed.

(** X1: [addChunks(cs ++ [c])] on an active buffer ends in the same state,
    returns the same result and queues the same callbacks as the last
    of the [addChunk] calls adding the chunks one by one at the same
    time: the chunks of one [addChunks] call queue at most one flush. *)
Theorem addChunks_as_addChunk_sequence (s : StreamBuffer) (cs : list Chunk) (c : Chunk)
    (now : Z) :
  isActive s = true ->
  addChunks s (app cs [c]) now =
  addChunk (fold_left (fun acc x => snd (fst (addChunk acc x now))) cs s) c now.
Proof.
  intros H.
  pose proof (fold_addChunk_state cs s now H) as Hs. cbv zeta in Hs.
  remember (fold_left (fun acc x => snd (fst (addChunk acc x now))) cs s) as s' eqn:Es.
  destruct Hs as (Ha & Hi & Hc & Ho & Hch & Hcr & Ht & Htot & Hf).
  unfold addChunks, addChunk. rewrite H, Ha. cbv beta iota zeta. simpl negb.
  assert (E : mkBuffer (sb_id s) (config s) (onFlush s) (app (chunks s) (app cs [c]))
                (createdAt s) now (flushTimerArmed s) true
                (totalChunksAdded s + Z.of_nat (List.length (app cs [c]))) (totalFlushes s)
              = mkBuffer (sb_id s') (config s') (onFlush s') (app (chunks s') [c])
                (createdAt s') now (flushTimerArmed s') true
                (totalChunksAdded s' + 1) (totalFlushes s')).
  { rewrite Hi, Hc, Ho, Hch, Hcr, Ht, Htot, Hf, app_assoc, length_app.
    f_equal. simpl. lia. }
  rewrite E. reflexivity.
Qed.

Lemma addChunks_active_state (s : StreamBuffer) (cs : list Chunk) (now : Z) :
  isActive s = true ->
  snd (fst (addChunks s cs now)) =
  mkBuffer (sb_id s) (config s) (onFlush s) (app (chunks s) cs) (createdAt s) now
    (flushTimerArmed s) (isActive s) (totalChunksAdded s + Z.of_nat (List.length cs))
    (totalFlushes s).
Proof.
  intros H. unfold addChunks. rewrite H. simpl.
  destruct (shouldFlush_check _ now) as [sf [rr|]]; destruct sf; reflexivity.
Qed.

(** X2: Under strategy [hybrid] with a positive [maxTime], the hint of
    [addChunk] and of [addChunks] on an active buffer is [size] when the
    new count reaches [maxSize], else [hybrid] when the buffer's age
    reaches [maxTime], else no flush: both calls set [lastChunkTime] to
    the current time just before the check, so the rule "70% full and
    idle for half of [maxTime]" never fires from them. *)
Theorem hybrid_hint_is_size_or_age (s : StreamBuffer) (c : Chunk) (cs : list Chunk)
    (now : Z) :
  isActive s = true -> strategy (config s) = Hybrid -> 0 < maxTime (config s) ->
  let hint (n : Z) :=
    if maxSize (config s) <=? n then (true, Some RSize)
    else if maxTime (config s) <=? now - createdAt s then (true, Some RHybrid)
    else (false, None) in
  (shouldFlush (fst (fst (addChunk s c now))), flushReason (fst (fst (addChunk s c now))))
    = hint (Z.of_nat (List.length (chunks s)) + 1) /\
  (shouldFlush (fst (fst (addChunks s cs now))), flushReason (fst (fst (addChunks s cs now))))
    = hint (Z.of_nat (List.length (chunks s)) + Z.of_nat (List.length cs)).
Proof.
  intros Ha Hs Ht hint. unfold hint.
  assert (Hz : (maxTime (config s) <=? 2 * (now - now)) = false)
    by (apply Z.leb_gt; lia).
  split.
  - rewrite addChunk_active_hint by exact Ha. rewrite addChunk_active_state by exact Ha.
    unfold shouldFlush_check.
    cbn [config strategy chunks createdAt lastChunkTime]. rewrite Hs.
    cbn [Strategy_eqb andb].
    rewrite length_app, Nat2Z.inj_add. change (Z.of_nat (List.length [c])) with 1.
    destruct (maxSize (config s) <=? _); [reflexivity|].
    destruct (maxTime (config s) <=? _); [reflexivity|].
    rewrite Hz, andb_false_r. reflexivity.
  - rewrite addChunks_active_hint by exact Ha. rewrite addChunks_active_state by exact Ha.
    unfold shouldFlush_check.
    cbn [config strategy chunks createdAt lastChunkTime]. rewrite Hs.
    cbn [Strategy_eqb andb].
    rewrite length_app, Nat2Z.inj_add.
    destruct (maxSize (config s) <=? _); [reflexivity|].
    destruct (maxTime (config s) <=? _); [reflexivity|].
    rewrite Hz, andb_false_r. reflexivity.
Qed.

(** X3: [getChunkAt] and [removeChunkAt] read an index differently.  For
    [0 <= i < n] ([n] chunks), [removeChunkAt(i)] removes and returns
    [getChunkAt(i)]; for [i >= n] both give [undefined] and nothing
    changes; for [-n <= i < 0], [getChunkAt(i)] is [undefined] but
    [removeChunkAt(i)] removes the chunk at [n + i], counted from the
    end; for [i < -n], [getChunkAt(i)] is [undefined] and
    [removeChunkAt(i)] removes the first chunk. *)
Theorem removeChunkAt_index (s : StreamBuffer) (i : Z) :
  let n := Z.of_nat (List.length (chunks s)) in
  (0 <= i < n ->
     exists c, getChunkAt s i = Some c /\
       removeChunkAt s i =
         (Some c, set_chunks s (app (firstn (Z.to_nat i) (chunks s))
                                  (skipn (S (Z.to_nat i)) (chunks s))))) /\
  (n <= i -> getChunkAt s i = None /\ removeChunkAt s i = (None, s)) /\
  (- n <= i < 0 -> getChunkAt s i = None /\ removeChunkAt s i = removeChunkAt s (n + i)) /\
  (i < - n -> getChunkAt s i = None /\ removeChunkAt s i = removeChunkAt s 0).
Proof.
  cbv zeta. unfold getChunkAt, removeChunkAt, splice_start.
  set (n := Z.of_nat (List.length (chunks s))).
  assert (Hn : 0 <= n) by (unfold n; lia).
  split; [|split; [|split]].
  - intros [H0 H1].
    replace (i <? 0) with false by (symmetry; apply Z.ltb_ge; lia).
    rewrite Z.min_l by lia.
    destruct (nth_error (chunks s) (Z.to_nat i)) as [c|] eqn:E.
    + exists c. split; reflexivity.
    + apply nth_error_None in E. unfold n in H1. lia.
  - intros H.
    replace (i <? 0) with false by (symmetry; apply Z.ltb_ge; lia).
    rewrite Z.min_r by lia.
    assert (E1 : nth_error (chunks s) (Z.to_nat i) = None)
      by (apply nth_error_None; unfold n in H; lia).
    assert (E2 : nth_error (chunks s) (Z.to_nat n) = None)
      by (apply nth_error_None; unfold n; lia).
    rewrite E1, E2. split; reflexivity.
  - intros [H0 H1].
    replace (i <? 0) with true by (symmetry; apply Z.ltb_lt; lia).
    replace (n + i <? 0) with false by (symmetry; apply Z.ltb_ge; lia).
    rewrite Z.max_l by lia. rewrite Z.min_l by lia.
    split; reflexivity.
  - intros H.
    replace (i <? 0) with true by (symmetry; apply Z.ltb_lt; lia).
    rewrite Z.max_r by lia. simpl (0 <? 0). rewrite Z.min_l by lia.
    split; reflexivity.
Qed.

(** X4: [destroy()] returns the buffered chunks and leaves the buffer empty,
    inactive and without a timer, but it is not final: [resume()]
    reactivates it (with a new timer for [time] and [hybrid]) and it
    accepts chunks again. *)
Theorem destroy_then_resume (s : StreamBuffer) (c : Chunk) (now : Z) :
  fst (destroy s) = chunks s /\
  chunks (snd (destroy s)) = [] /\ isActive (snd (destroy s)) = false /\
  flushTimerArmed (snd (destroy s)) = false /\
  isActive (resume (snd (destroy s))) = true /\
  flushTimerArmed (resume (snd (destroy s))) = timed (config s) /\
  chunks (snd (fst (addChunk (resume (snd (destroy s))) c now))) = [c].
Proof.
  repeat split.
  - unfold resume. simpl. destruct (timed (config s)); reflexivity.
  - rewrite addChunk_active_state by reflexivity. reflexivity.
Qed.

(** X5: [pause()] then [resume()] on an active buffer gives back the same
    buffer, chunks and counters included, except that the flush timer is
    then pending exactly for the [time] and [hybrid] strategies (a timer
    that had already fired is started again); [resume()] on an active
    buffer changes nothing. *)
Theorem pause_resume_round_trip (s : StreamBuffer) :
  isActive s = true ->
  resume (pause s) = set_active_timer s true (timed (config s)) /\ resume s = s.
Proof.
  intros H. unfold resume, pause, set_active_timer. rewrite H. simpl.
  split; [|reflexivity]. destruct (timed (config s)); reflexivity.
Qed.

Lemma flush_keeps_timer (s : StreamBuffer) :
  flushTimerArmed (snd (flush s)) = flushTimerArmed s.
Proof.
  unfold flush. destruct (flush_begin s); [reflexivity|].
  destruct outcome; reflexivity.
Qed.

Lemma addChunk_keeps_timer (s : StreamBuffer) (c : Chunk) (now : Z) :
  flushTimerArmed (snd (fst (addChunk s c now))) = flushTimerArmed s.
Proof.
  destruct (isActive s) eqn:H.
  - rewrite addChunk_active_state by exact H. reflexivity.
  - unfold addChunk. rewrite H. reflexivity.
Qed.

Lemma addChunks_keeps_timer (s : StreamBuffer) (cs : list Chunk) (now : Z) :
  flushTimerArmed (snd (fst (addChunks s cs now))) = flushTimerArmed s.
Proof.
  destruct (isActive s) eqn:H.
  - rewrite addChunks_active_state by exact H. reflexivity.
  - unfold addChunks. rewrite H. reflexivity.
Qed.

Lemma fire_flush_timer_disarms (s : StreamBuffer) :
  flushTimerArmed (fire_flush_timer s) = false.
Proof.
  unfold fire_flush_timer. destruct (flushTimerArmed s) eqn:H; [|exact H].
  destruct (_ && _); [rewrite flush_keeps_timer|]; reflexivity.
Qed.

Lemma run_op_keeps_disarmed (o : BufferOp) (s : StreamBuffer) :
  flushTimerArmed s = false -> flushTimerArmed (run_op o s) = false.
Proof.
  intros H. destruct o as [c now|cs now| | | | |t]; simpl.
  - rewrite addChunk_keeps_timer. exact H.
  - rewrite addChunks_keeps_timer. exact H.
  - rewrite flush_keeps_timer. exact H.
  - exact H.
  - reflexivity.
  - apply fire_flush_timer_disarms.
  - destruct t. simpl. rewrite flush_keeps_timer. exact H.
Qed.

Lemma run_ops_keeps_disarmed (os : list BufferOp) (s : StreamBuffer) :
  flushTimerArmed s = false -> flushTimerArmed (run_ops os s) = false.
Proof.
  revert s. induction os as [|o os IH]; intros s H; simpl; [exact H|].
  apply IH, run_op_keeps_disarmed, H.
Qed.

Lemma flush_active_nonempty_empties (s : StreamBuffer) :
  isActive s = true -> chunks s <> [] -> chunks (snd (flush s)) = [].
Proof.
  intros Ha Hne. unfold flush, flush_begin. rewrite Ha.
  destruct (chunks s) as [|x l] eqn:E; [contradiction|]. simpl.
  destruct (match onFlush s with Some h => h (x :: l) | None => _ end); reflexivity.
Qed.

(** X6: The flush timer is a one-shot [setTimeout]: when it fires on an
    active non-empty buffer it flushes it; once it has fired, no
    sequence of [addChunk], [addChunks], [flush], [clear], [pause] or
    queued callbacks starts it again, so no further time-driven flush
    happens until [resume] or [updateConfig] starts a new timer. *)
Theorem flush_timer_fires_once (s : StreamBuffer) (os : list BufferOp) :
  let s' := run_ops os (fire_flush_timer s) in
  flushTimerArmed s' = false /\ fire_flush_timer s' = s' /\
  (flushTimerArmed s = true -> isActive s = true -> chunks s <> [] ->
     chunks (fire_flush_timer s) = []).
Proof.
  cbv zeta.
  assert (H : flushTimerArmed (run_ops os (fire_flush_timer s)) = false)
    by (apply run_ops_keeps_disarmed, fire_flush_timer_disarms).
  split; [exact H|]. split.
  - unfold fire_flush_timer at 1. rewrite H. reflexivity.
  - intros Ht Ha Hne. unfold fire_flush_timer. rewrite Ht. simpl. rewrite Ha.
    destruct (chunks s) as [|x l] eqn:E; [contradiction|]. simpl.
    apply flush_active_nonempty_empties; simpl; [reflexivity | rewrite E; discriminate].
Qed.

(** X7: [updateConfig] validates the merged configuration: it throws, and
    changes nothing, exactly when the merged [maxSize] or [maxTime] is
    not positive; otherwise it installs the merged configuration, keeps
    the chunks and the active flag, and leaves the timer alone unless the
    strategy or [maxTime] changed, in which case a timer is pending
    afterwards exactly for [time] and [hybrid]. *)
Theorem updateConfig_validates (s : StreamBuffer) (p : PartialConfig) :
  let merged := merge_config (config s) p in
  (fst (updateConfig s p) = None <-> 0 < maxSize merged /\ 0 < maxTime merged) /\
  (fst (updateConfig s p) <> None -> snd (updateConfig s p) = s) /\
  (fst (updateConfig s p) = None ->
     config (snd (updateConfig s p)) = merged /\
     chunks (snd (updateConfig s p)) = chunks s /\
     isActive (snd (updateConfig s p)) = isActive s /\
     flushTimerArmed (snd (updateConfig s p)) =
       if Strategy_eqb (strategy (config s)) (strategy merged)
          && (maxTime (config s) =? maxTime merged)
       then flushTimerArmed s else timed merged).
Proof.
  cbv zeta. unfold updateConfig, validateBufferConfig.
  remember (merge_config (config s) p) as mg eqn:Emg. clear Emg.
  destruct (maxSize mg <=? 0) eqn:E1;
  destruct (maxTime mg <=? 0) eqn:E2; simpl;
  try (apply Z.leb_le in E1); try (apply Z.leb_le in E2);
  try (apply Z.leb_gt in E1); try (apply Z.leb_gt in E2).
  - split; [split; [discriminate | intros [? ?]; lia]|]. split; [reflexivity | discriminate].
  - split; [split; [discriminate | intros [? ?]; lia]|]. split; [reflexivity | discriminate].
  - split; [split; [discriminate | intros [? ?]; lia]|]. split; [reflexivity | discriminate].
  - split; [split; [intros _; lia | reflexivity]|].
    split; [intros H; contradiction|]. intros _.
    repeat split.
    destruct (Strategy_eqb _ _), (_ =? _); reflexivity.
Qed.

End StreamBufferFacts.

(** * Further properties of BufferManager *)
Section BufferManagerFacts.
Import StreamBufferModel StreamBufferOps BufferManagerModel BufferManagerOps.

Lemma map_has_false_get (k : string) (l : list (string * BufferInfo)) :
  map_has k l = false -> map_get k l = None.
Proof.
  unfold map_has. induction l as [|[k' v] l IH]; simpl; [reflexivity|].
  intros H. apply orb_false_iff in H as [H1 H2]. rewrite H1. apply IH, H2.
Qed.

Lemma map_get_has (k : string) (v : BufferInfo) (l : list (string * BufferInfo)) :
  map_get k l = Some v -> map_has k l = true.
Proof.
  unfold map_has. induction l as [|[k' v'] l IH]; simpl; [discriminate|].
  destruct (String.eqb k' k); [reflexivity|]. intros H. rewrite IH by exact H.
  apply orb_true_r.
Qed.

Lemma map_has_true_get (k : string) (l : list (string * BufferInfo)) :
  map_has k l = true -> exists v, map_get k l = Some v.
Proof.
  unfold map_has. induction l as [|[k' v'] l IH]; simpl; [discriminate|].
  destruct (String.eqb k' k); [eauto|]. simpl. exact IH.
Qed.

Lemma map_get_app_new (k : string) (v : BufferInfo) (l : list (string * BufferInfo)) :
  map_get k l = None -> map_get k (app l [(k, v)]) = Some v.
Proof.
  induction l as [|[k' v'] l IH]; simpl.
  - rewrite String.eqb_refl. reflexivity.
  - destruct (String.eqb k' k); [discriminate|]. exact IH.
Qed.

Lemma map_get_replace (k : string) (v v0 : BufferInfo) (l : list (string * BufferInfo)) :
  map_get k l = Some v0 ->
  map_get k (map (fun e => if String.eqb (fst e) k then (k, v) else e) l) = Some v.
Proof.
  induction l as [|[k' v'] l IH]; simpl; [discriminate|].
  destruct (String.eqb k' k) eqn:E; simpl.
  - rewrite String.eqb_refl. reflexivity.
  - rewrite E. exact IH.
Qed.

Lemma map_get_set_same (k : string) (v v0 : BufferInfo) (l : list (string * BufferInfo)) :
  map_get k l = Some v0 -> map_get k (map_set k v l) = Some v.
Proof.
  intros H. unfold map_set. rewrite (map_get_has _ _ _ H).
  exact (map_get_replace _ _ _ _ H).
Qed.

Lemma store_buffer_get (m : BufferManager) (k : string) (b : StreamBuffer) (info : BufferInfo) :
  map_get k (buffers m) = Some info ->
  map_get k (buffers (store_buffer m k b)) =
    Some (mkInfo (bi_id info) b (bi_createdAt info) (bi_lastActivity info)).
Proof.
  intros H. unfold store_buffer. rewrite H. simpl.
  exact (map_get_set_same _ _ _ _ H).
Qed.

Lemma filter_absent_key (k : string) (l : list (string * BufferInfo)) :
  map_has k l = false -> filter (fun e => negb (String.eqb (fst e) k)) l = l.
Proof.
  unfold map_has. induction l as [|[k' v] l IH]; simpl; [reflexivity|].
  intros H. apply orb_false_iff in H as [H1 H2]. rewrite H1. simpl. f_equal. apply IH, H2.
Qed.

Lemma cleanup_filters_twice (ca now : Z) (l : list (string * BufferInfo)) :
  filter (fun e => evicted ca now (snd e))
    (filter (fun e => negb (evicted ca now (snd e))) l) = [] /\
  filter (fun e => negb (evicted ca now (snd e)))
    (filter (fun e => negb (evicted ca now (snd e))) l) =
  filter (fun e => negb (evicted ca now (snd e))) l.
Proof.
  induction l as [|e l [IH1 IH2]]; simpl; [split; reflexivity|].
  destruct (evicted ca now (snd e)) eqn:E; simpl; [split; assumption|].
  rewrite E. simpl. rewrite IH1, IH2. split; reflexivity.
Qed.

(** X8: [cleanup()] keeps exactly the buffers that are neither older than
    [cleanupAge] nor idle for more than [cleanupAge / 2], reports the
    ids of all the others as removed, and a second pass at the same
    time removes nothing more. *)
Theorem cleanup_partition_idempotent (m : BufferManager) (now : Z) :
  let ca := cleanupAge (bm_config m) in
  (forall e, In e (buffers (snd (cleanup m now))) <->
             In e (buffers m) /\ evicted ca now (snd e) = false) /\
  (forall id, In id (fst (cleanup m now)) <->
              exists info, In (id, info) (buffers m) /\ evicted ca now info = true) /\
  cleanup (snd (cleanup m now)) now = ([], snd (cleanup m now)).
Proof.
  cbv zeta. unfold cleanup. cbn [fst snd buffers bm_config]. split; [|split].
  - intros e. rewrite filter_In. rewrite negb_true_iff. reflexivity.
  - intros id. rewrite in_map_iff. split.
    + intros [[k info] [Hk Hin]]. simpl in Hk. subst k.
      apply filter_In in Hin. exists info. exact Hin.
    + intros [info Hin]. exists (id, info). split; [reflexivity|].
      apply filter_In. exact Hin.
  - destruct (cleanup_filters_twice (cleanupAge (bm_config m)) now (buffers m)) as [H1 H2].
    rewrite H1, H2. reflexivity.
Qed.

Lemma replaced_key_evicted (k : string) (v : BufferInfo) (p : BufferInfo -> bool)
    (l : list (string * BufferInfo)) :
  In k (map fst (filter (fun e => p (snd e))
                   (map (fun e => if String.eqb (fst e) k then (k, v) else e) l))) ->
  (exists v0, map_get k l = Some v0) -> p v = true.
Proof.
  intros Hin _. induction l as [|[k' v'] l IH]; simpl in *; [contradiction|].
  destruct (String.eqb k' k) eqn:E; simpl in *.
  - destruct (p v) eqn:Ep; [reflexivity|]. simpl in Hin. apply IH, Hin.
  - destruct (p v') eqn:Ep; simpl in Hin; [|apply IH, Hin].
    destruct Hin as [Hk|Hin]; [|apply IH, Hin].
    subst k'. rewrite String.eqb_refl in E. discriminate.
Qed.

Lemma replaced_key_in (k : string) (v v0 : BufferInfo) (p : BufferInfo -> bool)
    (l : list (string * BufferInfo)) :
  map_get k l = Some v0 -> p v = true ->
  In k (map fst (filter (fun e => p (snd e))
                   (map (fun e => if String.eqb (fst e) k then (k, v) else e) l))).
Proof.
  intros Hg Hp. induction l as [|[k' v'] l IH]; simpl in *; [discriminate|].
  destruct (String.eqb k' k) eqn:E; simpl.
  - rewrite Hp. simpl. left. reflexivity.
  - destruct (p v'); simpl; [right|]; apply IH, Hg.
Qed.

(** X9: [getBuffer(id)] on a missing id returns [undefined] and changes
    nothing; on a present id it returns the buffer and records the call
    as activity, so a later [cleanup()] at time [t] removes that buffer
    exactly when it is older than [cleanupAge] or [t] is more than
    [cleanupAge / 2] after the call: reading a buffer keeps it from the
    idle eviction, never from the age eviction. *)
Theorem getBuffer_refreshes_activity (m : BufferManager) (bufferId : string) (now t : Z) :
  (map_get bufferId (buffers m) = None -> getBuffer m bufferId now = (None, m)) /\
  (forall info, map_get bufferId (buffers m) = Some info ->
     fst (getBuffer m bufferId now) = Some (bi_buffer info) /\
     (In bufferId (fst (cleanup (snd (getBuffer m bufferId now)) t)) <->
        cleanupAge (bm_config m) < t - bi_createdAt info \/
        cleanupAge (bm_config m) < 2 * (t - now))).
Proof.
  split.
  - intros H. unfold getBuffer. rewrite H. reflexivity.
  - intros info H. unfold getBuffer. rewrite H. split; [reflexivity|].
    unfold cleanup, map_set. cbn [fst snd buffers bm_config].
    rewrite (map_get_has _ _ _ H).
    set (v := mkInfo (bi_id info) (bi_buffer info) (bi_createdAt info) now).
    assert (Hv : evicted (cleanupAge (bm_config m)) t v = true <->
                 cleanupAge (bm_config m) < t - bi_createdAt info \/
                 cleanupAge (bm_config m) < 2 * (t - now)).
    { unfold evicted, v. simpl. rewrite orb_true_iff, !Z.ltb_lt. reflexivity. }
    rewrite <- Hv. split.
    + intros Hin. eapply replaced_key_evicted; [exact Hin | eauto].
    + intros Hp. eapply replaced_key_in; [exact H | exact Hp].
Qed.

Lemma createBuffer_inserts (m : BufferManager) (bufferId : string)
    (cfg : option StreamBufferConfig) (h : option (list Chunk -> FlushOutcome)) (now : Z) :
  map_has bufferId (buffers m) = false -> map_size (buffers m) < maxBuffers (bm_config m) ->
  createBuffer m bufferId cfg h now =
  (inr (mkJsError "TypeError" "buffer.on is not a function"),
   mkManager (bm_config m)
     (app (buffers m)
        [(bufferId, mkInfo bufferId
           (newStreamBuffer bufferId
              (match cfg with Some c => c | None => defaultBufferConfig (bm_config m) end)
              h now) now now)])).
Proof.
  intros Hh Hs. unfold createBuffer. rewrite Hh.
  replace (maxBuffers (bm_config m) <=? map_size (buffers m)) with false
    by (symmetry; apply Z.leb_gt; exact Hs).
  cbv zeta. unfold setupBufferEventListeners.
  rewrite map_set_absent by exact Hh. reflexivity.
Qed.

(** X10: The manager's [addChunk] with [createIfNotExists] on a missing id,
    with room for one more buffer, reports [success: false] and does not
    add the chunk, because [createBuffer] throws (its
    [setupBufferEventListeners] calls [buffer.on], which [StreamBuffer]
    does not have) after it has already stored the new buffer; the
    empty buffer stays registered under the id, so the same call made
    again finds it and adds the chunk. *)
Theorem addChunk_autocreate_fails_but_registers (st : ManagerState) (bufferId : string)
    (c : Chunk) (cfg : option StreamBufferConfig) (now : Z) :
  map_has bufferId (buffers (mgr st)) = false ->
  map_size (buffers (mgr st)) < maxBuffers (bm_config (mgr st)) ->
  let '(r, st1, ts) := mgr_addChunk st bufferId c true cfg now in
  r = mkMAdd false None None None /\ ts = [] /\
  totalChunksProcessed st1 = totalChunksProcessed st /\
  option_map (fun i => chunks (bi_buffer i)) (map_get bufferId (buffers (mgr st1))) = Some [] /\
  ma_success (fst (fst (mgr_addChunk st1 bufferId c true cfg now))) = true /\
  option_map (fun i => chunks (bi_buffer i))
    (map_get bufferId (buffers (mgr (snd (fst (mgr_addChunk st1 bufferId c true cfg now))))))
  = Some [c].
Proof.
  intros Hh Hs.
  set (info := mkInfo bufferId
           (newStreamBuffer bufferId
              (match cfg with Some c => c | None => defaultBufferConfig (bm_config (mgr st)) end)
              None now) now now).
  set (m1 := mkManager (bm_config (mgr st)) (app (buffers (mgr st)) [(bufferId, info)])).
  assert (Hg : map_get bufferId (buffers m1) = Some info)
    by (apply map_get_app_new, map_has_false_get, Hh).
  assert (E1 : mgr_addChunk st bufferId c true cfg now =
               (mkMAdd false None None None, with_mgr st m1, [])).
  { unfold mgr_addChunk, getBuffer. rewrite (map_has_false_get _ _ Hh).
    cbv beta iota. rewrite createBuffer_inserts by assumption. reflexivity. }
  rewrite E1. cbn [fst snd with_mgr mgr totalChunksProcessed].
  split; [reflexivity|]. split; [reflexivity|]. split; [reflexivity|].
  split; [rewrite Hg; reflexivity|].
  unfold mgr_addChunk at 1 2, getBuffer. cbn [mgr with_mgr totalChunksProcessed bm_totalFlushes]. rewrite Hg.
  cbv beta iota.
  set (info' := mkInfo (bi_id info) (bi_buffer info) (bi_createdAt info) now).
  assert (Ha : isActive (bi_buffer info) = true) by reflexivity.
  destruct (addChunk (bi_buffer info) c now) as [[r b'] ts] eqn:Ea.
  assert (Eb : b' = snd (fst (addChunk (bi_buffer info) c now))) by (rewrite Ea; reflexivity).
  rewrite addChunk_active_state in Eb by exact Ha.
  cbn [fst snd ma_success mgr].
  split; [reflexivity|].
  rewrite (store_buffer_get _ _ _ info') by (apply map_get_set_same with (v0 := info); exact Hg).
  simpl. rewrite Eb. reflexivity.
Qed.

Lemma map_get_map_buffers (g : StreamBuffer -> StreamBuffer) (m : BufferManager) (k : string) :
  map_get k (buffers (map_buffers g m)) =
  option_map (fun i => mkInfo (bi_id i) (g (bi_buffer i)) (bi_createdAt i) (bi_lastActivity i))
    (map_get k (buffers m)).
Proof.
  unfold map_buffers. simpl. induction (buffers m) as [|[k' v] l IH]; simpl; [reflexivity|].
  destruct (String.eqb k' k); [reflexivity|exact IH].
Qed.

(** X11: After [pauseAll()], the manager's [addChunk] on an existing buffer
    reports [success: true] and [shouldFlush: false] and counts the
    chunk in [totalChunksProcessed], but the paused buffer drops it: its
    chunk list is unchanged. *)
Theorem pauseAll_addChunk_counts_dropped (m : BufferManager) (n f : Z) (bufferId : string)
    (c : Chunk) (create : bool) (cfg : option StreamBufferConfig) (now : Z) :
  map_has bufferId (buffers m) = true ->
  let '(r, st1, ts) := mgr_addChunk (mkState (pauseAll m) n f) bufferId c create cfg now in
  r = mkMAdd true (Some false) None (Some bufferId) /\ ts = [] /\
  totalChunksProcessed st1 = n + 1 /\
  option_map (fun i => chunks (bi_buffer i)) (map_get bufferId (buffers (mgr st1))) =
  option_map (fun i => chunks (bi_buffer i)) (map_get bufferId (buffers m)).
Proof.
  intros Hh. destruct (map_has_true_get _ _ Hh) as [info Hg].
  assert (Hp : map_get bufferId (buffers (pauseAll m)) =
               Some (mkInfo (bi_id info) (pause (bi_buffer info)) (bi_createdAt info)
                       (bi_lastActivity info)))
    by (unfold pauseAll; rewrite map_get_map_buffers, Hg; reflexivity).
  unfold mgr_addChunk, getBuffer. cbn [mgr]. rewrite Hp. cbv beta iota.
  unfold addChunk at 1. cbn [bi_buffer isActive pause negb].
  cbn [fst snd mgr totalChunksProcessed].
  split; [reflexivity|]. split; [reflexivity|]. split; [reflexivity|].
  rewrite (store_buffer_get _ _ _
             (mkInfo (bi_id info) (pause (bi_buffer info)) (bi_createdAt info) now))
    by (eapply map_get_set_same; exact Hp).
  rewrite Hg. reflexivity.
Qed.

(** X12: [removeBuffer] on a missing id returns [false] and changes nothing;
    [createBuffer] on a new id with room to spare leaves the buffer
    registered (although it throws), and [removeBuffer] of that id then
    returns [true] and restores the manager exactly. *)
Theorem createBuffer_removeBuffer_round_trip (m : BufferManager) (bufferId : string)
    (cfg : option StreamBufferConfig) (h : option (list Chunk -> FlushOutcome)) (now : Z) :
  map_has bufferId (buffers m) = false -> map_size (buffers m) < maxBuffers (bm_config m) ->
  removeBuffer m bufferId = (false, m) /\
  map_has bufferId (buffers (snd (createBuffer m bufferId cfg h now))) = true /\
  removeBuffer (snd (createBuffer m bufferId cfg h now)) bufferId = (true, m).
Proof.
  intros Hh Hs. rewrite createBuffer_inserts by assumption. cbn [snd buffers bm_config].
  assert (Hg : map_get bufferId (app (buffers m)
                 [(bufferId, mkInfo bufferId
                    (newStreamBuffer bufferId
                       (match cfg with Some c => c | None => defaultBufferConfig (bm_config m) end)
                       h now) now now)]) <> None)
    by (rewrite map_get_app_new by (apply map_has_false_get, Hh); discriminate).
  split; [|split].
  - unfold removeBuffer. rewrite (map_has_false_get _ _ Hh). reflexivity.
  - destruct (map_get bufferId _) eqn:E; [|contradiction].
    exact (map_get_has _ _ _ E).
  - unfold removeBuffer. cbn [buffers bm_config].
    destruct (map_get bufferId _) eqn:E; [|contradiction].
    unfold map_delete. rewrite filter_app, filter_absent_key by exact Hh.
    simpl. rewrite String.eqb_refl. simpl. rewrite app_nil_r.
    destruct m; reflexivity.
Qed.

(** X13: [flushBuffer] on a missing id rejects with [Buffer "<id>" not found]
    and changes nothing.  On a present id it settles as the buffer's own
    [flush] does and stores the flushed buffer; the manager's
    [totalFlushes] grows by one whenever [flush] returned, also when it
    returned [[]] for an empty or paused buffer, and not when it threw. *)
Theorem flushBuffer_outcomes (st : ManagerState) (bufferId : string) (now : Z) :
  (map_get bufferId (buffers (mgr st)) = None ->
     flushBuffer st bufferId now = (inr (not_found_error bufferId), st)) /\
  (forall info, map_get bufferId (buffers (mgr st)) = Some info ->
     fst (flushBuffer st bufferId now) = fst (flush (bi_buffer info)) /\
     bm_totalFlushes (snd (flushBuffer st bufferId now)) =
       bm_totalFlushes st + (match fst (flush (bi_buffer info)) with inl _ => 1 | inr _ => 0 end) /\
     option_map bi_buffer (map_get bufferId (buffers (mgr (snd (flushBuffer st bufferId now)))))
       = Some (snd (flush (bi_buffer info)))).
Proof.
  split.
  - intros H. unfold flushBuffer, getBuffer. rewrite H. destruct st; reflexivity.
  - intros info H. unfold flushBuffer, getBuffer. rewrite H. cbv beta iota.
    destruct (flush (bi_buffer info)) as [out b'] eqn:E.
    assert (Hs : map_get bufferId
                   (buffers (store_buffer
                      (mkManager (bm_config (mgr st))
                         (map_set bufferId (mkInfo (bi_id info) (bi_buffer info)
                                              (bi_createdAt info) now) (buffers (mgr st))))
                      bufferId b')) =
                 Some (mkInfo (bi_id info) b' (bi_createdAt info) now))
      by (apply (store_buffer_get _ _ _ (mkInfo (bi_id info) (bi_buffer info) (bi_createdAt info) now)); eapply map_get_set_same; exact H).
    destruct out as [cs|e]; cbn [fst snd mgr bm_totalFlushes with_mgr];
      rewrite Hs; (split; [reflexivity|]); (split; [|reflexivity]); lia.
Qed.

Lemma flush_keeps_active (s : StreamBuffer) : isActive (snd (flush s)) = isActive s.
Proof.
  unfold flush. destruct (flush_begin s); [reflexivity|].
  destruct outcome; reflexivity.
Qed.

Lemma flush_leaves_active_empty (s : StreamBuffer) :
  isActive (snd (flush s)) = true -> chunks (snd (flush s)) = [].
Proof.
  rewrite flush_keeps_active. intros Ha.
  unfold flush, flush_begin. rewrite Ha. simpl.
  destruct (chunks s) as [|x l] eqn:E; simpl; [exact E|].
  destruct (match onFlush s with Some h => h (x :: l) | None => _ end); reflexivity.
Qed.

Lemma flush_entries_spec (es : list (string * BufferInfo)) :
  let '(rs, es', n) := flush_entries es in
  map fa_bufferId rs = map fst es /\ map fst es' = map fst es /\
  (forall e, In e es' -> isActive (bi_buffer (snd e)) = true -> chunks (bi_buffer (snd e)) = []) /\
  (forall r, In r rs -> fa_error r <> None -> fa_chunks r = []) /\
  n = Z.of_nat (List.length
        (filter (fun r => match fa_error r with None => true | Some _ => false end) rs)).
Proof.
  induction es as [|[id info] es IH]; simpl.
  - repeat split; intros; contradiction.
  - destruct (flush (bi_buffer info)) as [out b'] eqn:E.
    assert (Hb : b' = snd (flush (bi_buffer info))) by (rewrite E; reflexivity).
    destruct (flush_entries es) as [[rs es'] n] eqn:Er.
    destruct IH as (H1 & H2 & H3 & H4 & H5).
    destruct out as [cs|err]; simpl.
    + split; [f_equal; exact H1|]. split; [f_equal; exact H2|].
      split; [|split].
      * intros e [He|He]; [subst e; simpl; rewrite Hb; apply flush_leaves_active_empty|].
        apply H3, He.
      * intros r [Hr|Hr]; [subst r; simpl; intros Hc; contradiction|]. apply H4, Hr.
      * rewrite H5. lia.
    + split; [f_equal; exact H1|]. split; [f_equal; exact H2|].
      split; [|split].
      * intros e [He|He]; [subst e; simpl; rewrite Hb; apply flush_leaves_active_empty|].
        apply H3, He.
      * intros r [Hr|Hr]; [subst r; reflexivity|]. apply H4, Hr.
      * exact H5.
Qed.

(** X14: [flushAllBuffers] returns one result per buffer, in [Map] order, and
    keeps every buffer registered; afterwards every active buffer is
    empty (a flush that threw included); a failed flush is reported
    with no chunks, and the manager's [totalFlushes] grows by the number
    of results without error. *)
Theorem flushAllBuffers_results (st : ManagerState) :
  let '(rs, st1) := flushAllBuffers st in
  map fa_bufferId rs = map fst (buffers (mgr st)) /\
  map fst (buffers (mgr st1)) = map fst (buffers (mgr st)) /\
  (forall e, In e (buffers (mgr st1)) ->
     isActive (bi_buffer (snd e)) = true -> chunks (bi_buffer (snd e)) = []) /\
  (forall r, In r rs -> fa_error r <> None -> fa_chunks r = []) /\
  bm_totalFlushes st1 = bm_totalFlushes st +
    Z.of_nat (List.length
      (filter (fun r => match fa_error r with None => true | Some _ => false end) rs)).
Proof.
  unfold flushAllBuffers. pose proof (flush_entries_spec (buffers (mgr st))) as Hs.
  destruct (flush_entries (buffers (mgr st))) as [[rs es'] n].
  destruct Hs as (H1 & H2 & H3 & H4 & H5). simpl.
  repeat split; try assumption. rewrite H5. reflexivity.
Qed.

End BufferManagerFacts.

(** * Further properties of HookManager and HookableEventEmitter *)
Section SortedFacts.
Import SortedLists.
Context {A : Type} (p : A -> Z).

Lemma sorted_by_tail (x : A) (l : list A) :
  sorted_by p (x :: l) = true -> sorted_by p l = true.
Proof.
  destruct l as [|y l]; simpl; [reflexivity|].
  intros H. apply andb_true_iff in H. apply H.
Qed.

Lemma sorted_by_head_le (x y : A) (l : list A) :
  sorted_by p (x :: l) = true -> In y l -> p x <= p y.
Proof.
  revert x. induction l as [|z l IH]; intros x Hs Hin; [contradiction|].
  simpl in Hs. apply andb_true_iff in Hs as [Hxz Hs]. apply Z.leb_le in Hxz.
  destruct Hin as [<-|Hin]; [exact Hxz|]. specialize (IH z Hs Hin). lia.
Qed.

Lemma sorted_by_cons (x : A) (l : list A) :
  (forall y, In y l -> p x <= p y) -> sorted_by p l = true -> sorted_by p (x :: l) = true.
Proof.
  destruct l as [|y l]; intros Hle Hs; [reflexivity|].
  change ((p x <=? p y) && sorted_by p (y :: l) = true).
  rewrite Hs, andb_true_r. apply Z.leb_le, Hle. left; reflexivity.
Qed.

Lemma in_insert_by (r y : A) (l : list A) : In y (insert_by p r l) -> y = r \/ In y l.
Proof.
  induction l as [|x l IH]; simpl.
  - intros [H|[]]. left; congruence.
  - destruct (p r <? p x); simpl.
    + intros [H|[H|H]]; [left; congruence | right; left; exact H | right; right; exact H].
    + intros [H|H]; [right; left; exact H|].
      destruct (IH H) as [H'|H']; [left; exact H' | right; right; exact H'].
Qed.

Lemma in_insert_by_self (r : A) (l : list A) : In r (insert_by p r l).
Proof.
  induction l as [|x l IH]; simpl; [left; reflexivity|].
  destruct (p r <? p x); simpl; [left; reflexivity | right; exact IH].
Qed.

Lemma insert_by_sorted (r : A) (l : list A) :
  sorted_by p l = true -> sorted_by p (insert_by p r l) = true.
Proof.
  induction l as [|x l IH]; intros Hs; [reflexivity|].
  change (sorted_by p (if p r <? p x then r :: x :: l else x :: insert_by p r l) = true).
  destruct (p r <? p x) eqn:E.
  - apply Z.ltb_lt in E. apply sorted_by_cons; [|exact Hs].
    intros y [<-|Hy]; [lia|]. pose proof (sorted_by_head_le x y l Hs Hy). lia.
  - apply Z.ltb_ge in E. apply sorted_by_cons; [|apply IH, (sorted_by_tail x), Hs].
    intros y Hy. destruct (in_insert_by r y l Hy) as [->|Hy']; [exact E|].
    exact (sorted_by_head_le x y l Hs Hy').
Qed.

Lemma fold_insert_sorted (l acc : list A) :
  sorted_by p acc = true ->
  sorted_by p (fold_left (fun acc x => insert_by p x acc) l acc) = true.
Proof.
  revert acc. induction l as [|x l IH]; intros acc Hs; simpl; [exact Hs|].
  apply IH, insert_by_sorted, Hs.
Qed.

Lemma in_remove_first (test : A -> bool) (y : A) (l : list A) :
  In y (remove_first_by test l) -> In y l.
Proof.
  induction l as [|x l IH]; simpl; [tauto|]. intros H.
  destruct (test x); [right; exact H|].
  destruct H as [H|H]; [left; exact H | right; apply IH, H].
Qed.

Lemma remove_first_sorted (test : A -> bool) (l : list A) :
  sorted_by p l = true -> sorted_by p (remove_first_by test l) = true.
Proof.
  induction l as [|x l IH]; intros Hs; [reflexivity|].
  change (sorted_by p (if test x then l else x :: remove_first_by test l) = true).
  destruct (test x); [exact (sorted_by_tail x l Hs)|].
  apply sorted_by_cons; [|apply IH, (sorted_by_tail x), Hs].
  intros y Hy. exact (sorted_by_head_le x y l Hs (in_remove_first test y l Hy)).
Qed.


Lemma remove_insert_fresh (test : A -> bool) (r : A) (l : list A) :
  test r = true -> forallb (fun x => negb (test x)) l = true ->
  remove_first_by test (insert_by p r l) = l.
Proof.
  intros Hr. induction l as [|x l IH]; intros H; simpl; [rewrite Hr; reflexivity|].
  simpl in H. apply andb_true_iff in H as [H1 H2]. apply negb_true_iff in H1.
  destruct (p r <? p x); simpl; [rewrite Hr; reflexivity|].
  rewrite H1. f_equal. apply IH, H2.
Qed.


Lemma sorted_app_le (acc : list A) (x : A) (l : list A) :
  sorted_by p (app acc (x :: l)) = true -> forall y, In y acc -> p y <= p x.
Proof.
  induction acc as [|a acc IH]; intros Hs y Hy; [contradiction|].
  destruct Hy as [<-|Hy].
  - apply (sorted_by_head_le a x (app acc (x :: l))); [exact Hs|].
    apply in_or_app; right; left; reflexivity.
  - apply IH; [exact (sorted_by_tail a _ Hs)|exact Hy].
Qed.

Lemma insert_by_last (x : A) (acc : list A) :
  (forall y, In y acc -> p y <= p x) -> insert_by p x acc = app acc [x].
Proof.
  induction acc as [|a acc IH]; intros H; simpl; [reflexivity|].
  replace (p x <? p a) with false by (symmetry; apply Z.ltb_ge, H; left; reflexivity).
  f_equal. apply IH. intros y Hy. apply H. right; exact Hy.
Qed.

Lemma fold_insert_sorted_app (l acc : list A) :
  sorted_by p (app acc l) = true ->
  fold_left (fun acc x => insert_by p x acc) l acc = app acc l.
Proof.
  revert acc. induction l as [|x l IH]; intros acc Hs; simpl; [rewrite app_nil_r; reflexivity|].
  rewrite (insert_by_last x acc (sorted_app_le acc x l Hs)).
  rewrite IH; [rewrite <- app_assoc; reflexivity|]. rewrite <- app_assoc. exact Hs.
Qed.

Lemma sort_app_one (l : list A) (r : A) :
  sorted_by p l = true ->
  fold_left (fun acc x => insert_by p x acc) (app l [r]) [] = insert_by p r l.
Proof.
  intros Hs. rewrite fold_left_app, (fold_insert_sorted_app l []) by exact Hs. reflexivity.
Qed.

End SortedFacts.

Lemma skipn_nth_error {A : Type} (l : list A) (i : nat) (x : A) :
  nth_error l i = Some x -> skipn i l = x :: skipn (S i) l.
Proof.
  revert i. induction l as [|y l IH]; intros [|i] H; simpl in *; try discriminate.
  - injection H as ->. reflexivity.
  - apply IH, H.
Qed.

Lemma skipn_nth_none {A : Type} (l : list A) (i : nat) :
  nth_error l i = None -> skipn i l = [].
Proof. intros H. apply nth_error_None in H. apply skipn_all2, H. Qed.

Lemma HookEvent_eqb_refl (e : HookEvent) : HookEvent_eqb e e = true.
Proof. destruct e; reflexivity. Qed.

Lemma HookEvent_eqb_eq (a b : HookEvent) : HookEvent_eqb a b = true -> a = b.
Proof. destruct a, b; simpl; congruence. Qed.

Section HookFacts.
Import HookManagerModel HookManagerOps.
Context {D : Type}.

Lemma insert_by_priority_eq (r : PriorityHookRegistration D)
    (l : list (PriorityHookRegistration D)) :
  insert_by_priority r l = SortedLists.insert_by priority r l.
Proof.
  induction l as [|x l IH]; simpl; [reflexivity|].
  destruct (priority r <? priority x); [reflexivity|]. f_equal; exact IH.
Qed.

Lemma fold_insert_priority_eq (l acc : list (PriorityHookRegistration D)) :
  fold_left (fun acc x => insert_by_priority x acc) l acc =
  fold_left (fun acc x => SortedLists.insert_by priority x acc) l acc.
Proof.
  revert acc. induction l as [|x l IH]; intros acc; simpl; [reflexivity|].
  rewrite insert_by_priority_eq. apply IH.
Qed.

Lemma sort_by_priority_sorted (l : list (PriorityHookRegistration D)) :
  prio_sorted (sort_by_priority l) = true.
Proof.
  unfold sort_by_priority, prio_sorted. rewrite fold_insert_priority_eq.
  apply fold_insert_sorted. reflexivity.
Qed.

Lemma sort_by_priority_app_one (l : list (PriorityHookRegistration D))
    (r : PriorityHookRegistration D) :
  prio_sorted l = true -> sort_by_priority (app l [r]) = SortedLists.insert_by priority r l.
Proof.
  intros Hs. unfold sort_by_priority. rewrite fold_insert_priority_eq.
  apply sort_app_one, Hs.
Qed.

Lemma remove_first_id_eq (id : string) (l : list (PriorityHookRegistration D)) :
  remove_first_id id l = SortedLists.remove_first_by (fun r => String.eqb (reg_id r) id) l.
Proof.
  induction l as [|x l IH]; simpl; [reflexivity|].
  destruct (String.eqb (reg_id x) id); [reflexivity|]. f_equal; exact IH.
Qed.

Lemma has_id_false (id : string) (l : list (PriorityHookRegistration D)) :
  has_id id l = false -> forallb (fun x => negb (String.eqb (reg_id x) id)) l = true.
Proof.
  unfold has_id. induction l as [|x l IH]; simpl; [reflexivity|].
  intros H. apply orb_false_iff in H as [H1 H2]. rewrite H1. simpl. apply IH, H2.
Qed.

Lemma reg_lookup_update_same (ev : HookEvent)
    (g : list (PriorityHookRegistration D) -> list (PriorityHookRegistration D))
    (reg : Registry D) :
  reg_lookup ev (reg_update ev g reg) = option_map g (reg_lookup ev reg).
Proof.
  induction reg as [|[e l] reg IH]; simpl; [reflexivity|].
  destruct (HookEvent_eqb e ev) eqn:E; simpl; rewrite E; [reflexivity|exact IH].
Qed.

Lemma reg_lookup_update_other (ev ev' : HookEvent)
    (g : list (PriorityHookRegistration D) -> list (PriorityHookRegistration D))
    (reg : Registry D) :
  ev' <> ev -> reg_lookup ev' (reg_update ev g reg) = reg_lookup ev' reg.
Proof.
  intros Hne. induction reg as [|[e l] reg IH]; simpl; [reflexivity|].
  destruct (HookEvent_eqb e ev) eqn:E; simpl.
  - apply HookEvent_eqb_eq in E. subst e.
    destruct (HookEvent_eqb ev ev') eqn:E'; [apply HookEvent_eqb_eq in E'; congruence|reflexivity].
  - destruct (HookEvent_eqb e ev'); [reflexivity|exact IH].
Qed.

Lemma reg_lookup_app (ev : HookEvent) (reg t : Registry D) :
  reg_lookup ev (app reg t) =
  match reg_lookup ev reg with Some l => Some l | None => reg_lookup ev t end.
Proof.
  induction reg as [|[e l] reg IH]; simpl; [reflexivity|].
  destruct (HookEvent_eqb e ev); [reflexivity|exact IH].
Qed.

Lemma live_add_registration_same (ev : HookEvent) (r : PriorityHookRegistration D)
    (reg : Registry D) :
  live ev (add_registration ev r reg) = sort_by_priority (app (live ev reg) [r]).
Proof.
  unfold add_registration, live. destruct (reg_lookup ev reg) as [l|] eqn:E.
  - rewrite reg_lookup_update_same, E. reflexivity.
  - rewrite reg_lookup_update_same, reg_lookup_app, E. simpl.
    rewrite HookEvent_eqb_refl. reflexivity.
Qed.

Lemma live_add_registration_other (ev ev' : HookEvent) (r : PriorityHookRegistration D)
    (reg : Registry D) :
  ev' <> ev -> live ev' (add_registration ev r reg) = live ev' reg.
Proof.
  intros Hne. unfold add_registration, live. rewrite reg_lookup_update_other by exact Hne.
  destruct (reg_lookup ev reg); [reflexivity|].
  rewrite reg_lookup_app. destruct (reg_lookup ev' reg); [reflexivity|]. simpl.
  destruct (HookEvent_eqb ev ev') eqn:E; [apply HookEvent_eqb_eq in E; congruence|reflexivity].
Qed.

Lemma registry_sorted_update (ev : HookEvent)
    (g : list (PriorityHookRegistration D) -> list (PriorityHookRegistration D))
    (reg : Registry D) :
  registry_sorted reg = true ->
  (forall l, prio_sorted l = true -> prio_sorted (g l) = true) ->
  registry_sorted (reg_update ev g reg) = true.
Proof.
  unfold registry_sorted. intros Hs Hg.
  induction reg as [|[e l] reg IH]; simpl in *; [reflexivity|].
  apply andb_true_iff in Hs as [H1 H2].
  destruct (HookEvent_eqb e ev); simpl; apply andb_true_iff; split; auto.
Qed.

Lemma add_registration_sorted (ev : HookEvent) (r : PriorityHookRegistration D)
    (reg : Registry D) :
  registry_sorted reg = true -> registry_sorted (add_registration ev r reg) = true.
Proof.
  intros Hs. unfold add_registration. apply registry_sorted_update.
  - destruct (reg_lookup ev reg); [exact Hs|].
    unfold registry_sorted in *. rewrite forallb_app, Hs. reflexivity.
  - intros l _. apply sort_by_priority_sorted.
Qed.

Lemma unregister_sorted (id : string) (reg : Registry D) :
  registry_sorted reg = true -> registry_sorted (snd (unregisterHookById id reg)) = true.
Proof.
  unfold registry_sorted. induction reg as [|[e l] reg IH]; simpl; [reflexivity|].
  intros Hs. apply andb_true_iff in Hs as [H1 H2].
  destruct (has_id id l); simpl.
  - rewrite H2, andb_true_r. unfold prio_sorted in *. rewrite remove_first_id_eq.
    apply remove_first_sorted, H1.
  - specialize (IH H2). destruct (unregisterHookById id reg) as [b reg'] eqn:E.
    simpl in *. rewrite H1. exact IH.
Qed.

Lemma invoke_sorted (r : PriorityHookRegistration D) (data : D) (reg : Registry D) :
  registry_sorted reg = true -> registry_sorted (snd (fst (invoke r data reg))) = true.
Proof.
  intros Hs.
  assert (Hw : registry_sorted (match hook r with
                                | OnceWrapper id _ => snd (unregisterHookById id reg)
                                | Plain _ => reg end) = true)
    by (destruct (hook r); [exact Hs|apply unregister_sorted, Hs]).
  unfold invoke. cbv zeta. destruct (timeout r) as [t|].
  - destruct (t =? 0); [exact Hw|].
    destruct (hr_timing (hook_fn (hook r) data)) as [|d]; [exact Hw|].
    destruct (timer_delay t <=? d); [exact Hs|exact Hw].
  - exact Hw.
Qed.

Lemma run_registration_reg (ev : HookEvent) (r : PriorityHookRegistration D) (data : D)
    (res : HookExecutionResult) (reg : Registry D) :
  let '(_, _, reg', _) := run_registration ev r data res reg in
  reg' = snd (fst (invoke r data reg)).
Proof.
  unfold run_registration. destruct (invoke r data reg) as [[st reg'] late].
  destruct st; reflexivity.
Qed.

Lemma dispatch_loop_sorted (fuel : nat) (ev : HookEvent) (i : nat) (data : D)
    (res : HookExecutionResult) (reg : Registry D) (late : list string) :
  registry_sorted reg = true ->
  registry_sorted (snd (fst (dispatch_loop fuel ev i data res reg late))) = true.
Proof.
  revert i data res reg late.
  induction fuel as [|fuel IH]; intros i data res reg late Hs; [exact Hs|].
  cbn [dispatch_loop]. destruct (nth_error (live ev reg) i) as [r|]; [|exact Hs].
  pose proof (run_registration_reg ev r data res reg) as Hr.
  destruct (run_registration ev r data res reg) as [[[d' res'] reg'] late'].
  apply IH. rewrite Hr. apply invoke_sorted, Hs.
Qed.

Lemma unregister_all_sorted (ids : list string) (reg : Registry D) :
  registry_sorted reg = true -> registry_sorted (unregister_all ids reg) = true.
Proof.
  unfold unregister_all. revert reg.
  induction ids as [|id ids IH]; intros reg Hs; simpl; [exact Hs|].
  apply IH, unregister_sorted, Hs.
Qed.

Lemma executeHooks_sorted (ev : HookEvent) (data : D) (reg : Registry D) :
  registry_sorted reg = true ->
  registry_sorted (snd (executeHooksWithMonitoring ev data reg)) = true.
Proof.
  intros Hs. unfold executeHooksWithMonitoring. cbv zeta.
  pose proof (dispatch_loop_sorted (List.length (live ev reg)) ev 0 data
                (mkResult true [] [] data (List.length (live ev reg))) reg [] Hs) as H.
  destruct (dispatch_loop (List.length (live ev reg)) ev 0 data
              (mkResult true [] [] data (List.length (live ev reg))) reg [])
    as [[res reg'] late].
  apply unregister_all_sorted, H.
Qed.

(** X15: Every event's array of registrations stays sorted by priority
    under any sequence of [registerHook], [registerOneTimeHook],
    [registerGlobalHook], [unregisterHookById],
    [executeHooksWithMonitoring] and [clearAllHooks] calls, so every
    dispatch runs hooks in priority order. *)
Theorem registry_stays_sorted (os : list (HookOp D)) (reg : Registry D) :
  registry_sorted reg = true -> registry_sorted (run_hook_ops os reg) = true.
Proof.
  revert reg. induction os as [|o os IH]; intros reg Hs; simpl; [exact Hs|].
  apply IH. destruct o; simpl.
  - apply add_registration_sorted, Hs.
  - apply add_registration_sorted, Hs.
  - apply add_registration_sorted, Hs.
  - apply unregister_sorted, Hs.
  - apply executeHooks_sorted, Hs.
  - reflexivity.
Qed.

Lemma unregister_fresh_app (id : string) (reg t : Registry D) :
  forallb (fun e => negb (has_id id (snd e))) reg = true ->
  unregisterHookById id (app reg t) =
  (fst (unregisterHookById id t), app reg (snd (unregisterHookById id t))).
Proof.
  induction reg as [|[e l] reg IH]; intros H.
  - simpl. destruct (unregisterHookById id t); reflexivity.
  - simpl in H. apply andb_true_iff in H as [H1 H2]. apply negb_true_iff in H1.
    simpl. rewrite H1, (IH H2). reflexivity.
Qed.

Lemma unregister_absent (id : string) (reg : Registry D) :
  forallb (fun e => negb (has_id id (snd e))) reg = true ->
  unregisterHookById id reg = (false, reg).
Proof.
  intros H. pose proof (unregister_fresh_app id reg [] H) as E.
  rewrite app_nil_r in E. rewrite E. simpl. rewrite app_nil_r. reflexivity.
Qed.

Lemma unregister_update_fresh (ev : HookEvent) (r : PriorityHookRegistration D)
    (reg : Registry D) (l : list (PriorityHookRegistration D)) :
  registry_sorted reg = true ->
  forallb (fun e => negb (has_id (reg_id r) (snd e))) reg = true ->
  reg_lookup ev reg = Some l ->
  unregisterHookById (reg_id r) (reg_update ev (fun l => sort_by_priority (app l [r])) reg)
  = (true, reg).
Proof.
  unfold registry_sorted.
  induction reg as [|[e l0] reg IH]; intros Hs Hf Hl; [discriminate|].
  simpl in Hs, Hf, Hl.
  apply andb_true_iff in Hs as [Hs1 Hs2]. apply andb_true_iff in Hf as [Hf1 Hf2].
  apply negb_true_iff in Hf1.
  cbn [reg_update]. destruct (HookEvent_eqb e ev) eqn:E.
  - cbn [unregisterHookById]. rewrite sort_by_priority_app_one by exact Hs1.
    assert (Hh : has_id (reg_id r) (SortedLists.insert_by priority r l0) = true).
    { unfold has_id. apply existsb_exists. exists r.
      split; [apply in_insert_by_self|apply String.eqb_refl]. }
    rewrite Hh, remove_first_id_eq, remove_insert_fresh;
      [reflexivity | apply String.eqb_refl | apply has_id_false, Hf1].
  - cbn [unregisterHookById]. rewrite Hf1, (IH Hs2 Hf2 Hl). reflexivity.
Qed.

Lemma update_app_absent (ev : HookEvent)
    (g : list (PriorityHookRegistration D) -> list (PriorityHookRegistration D))
    (reg : Registry D) (x : list (PriorityHookRegistration D)) :
  reg_lookup ev reg = None -> reg_update ev g (app reg [(ev, x)]) = app reg [(ev, g x)].
Proof.
  induction reg as [|[e l] reg IH]; simpl; intros H.
  - rewrite HookEvent_eqb_refl. reflexivity.
  - destruct (HookEvent_eqb e ev); [discriminate|]. f_equal. apply IH, H.
Qed.

Lemma live_app_empty (ev ev' : HookEvent) (reg : Registry D) :
  live ev' (app reg [(ev, [])]) = live ev' reg.
Proof.
  unfold live. rewrite reg_lookup_app. destruct (reg_lookup ev' reg); [reflexivity|].
  simpl. destruct (HookEvent_eqb ev ev'); reflexivity.
Qed.

Lemma add_unregister (ev : HookEvent) (r : PriorityHookRegistration D) (reg : Registry D) :
  registry_sorted reg = true ->
  forallb (fun e => negb (has_id (reg_id r) (snd e))) reg = true ->
  fst (unregisterHookById (reg_id r) (add_registration ev r reg)) = true /\
  forall ev', live ev' (snd (unregisterHookById (reg_id r) (add_registration ev r reg)))
              = live ev' reg.
Proof.
  intros Hs Hf. unfold add_registration. destruct (reg_lookup ev reg) as [l|] eqn:E.
  - rewrite (unregister_update_fresh ev r reg l Hs Hf E). split; reflexivity.
  - rewrite update_app_absent by exact E. rewrite unregister_fresh_app by exact Hf.
    replace (sort_by_priority (app [] [r])) with [r] by reflexivity.
    unfold unregisterHookById, has_id, remove_first_id. simpl.
    rewrite String.eqb_refl. simpl. split; [reflexivity|].
    intros ev'. apply live_app_empty.
Qed.

(** X16: [unregisterHookById] of an id no event holds returns [false] and
    changes nothing.  In a sorted registry, registering a hook (with
    [registerHook] or [registerOneTimeHook]) under a fresh id and then
    unregistering that id returns [true] and gives back every event's
    array exactly as before. *)
Theorem register_unregister_round_trip (ev : HookEvent) (f : HookFunction D) (prio : Z)
    (id : string) (tmo : option Z) (reg : Registry D) :
  registry_sorted reg = true ->
  forallb (fun e => negb (has_id id (snd e))) reg = true ->
  unregisterHookById id reg = (false, reg) /\
  fst (unregisterHookById id (snd (registerHook ev f prio id tmo reg))) = true /\
  (forall ev', live ev' (snd (unregisterHookById id (snd (registerHook ev f prio id tmo reg))))
               = live ev' reg) /\
  fst (unregisterHookById id (snd (registerOneTimeHook ev f prio id tmo reg))) = true /\
  (forall ev', live ev' (snd (unregisterHookById id
                                (snd (registerOneTimeHook ev f prio id tmo reg))))
               = live ev' reg).
Proof.
  intros Hs Hf. split; [apply unregister_absent, Hf|].
  destruct (add_unregister ev (mkReg (Plain f) prio id false tmo) reg Hs Hf) as [H1 H2].
  destruct (add_unregister ev (mkReg (OnceWrapper id f) prio id true tmo) reg Hs Hf)
    as [H3 H4].
  split; [exact H1|]. split; [exact H2|]. split; [exact H3|exact H4].
Qed.

(** X17: [registerGlobalHook] registers the hook for ['message:before']
    only: every other event's array is unchanged, so a "global" hook
    never runs for chunk, buffer or tool events. *)
Theorem registerGlobalHook_message_before_only (f : HookFunction D) (prio : Z) (id : string)
    (reg : Registry D) :
  (forall ev, ev <> MessageBefore ->
     live ev (snd (registerGlobalHook f prio id reg)) = live ev reg) /\
  live MessageBefore (snd (registerGlobalHook f prio id reg)) =
    sort_by_priority (app (live MessageBefore reg) [mkReg (Plain f) prio id false None]).
Proof.
  split.
  - intros ev Hne. apply live_add_registration_other, Hne.
  - apply live_add_registration_same.
Qed.

Lemma invoke_plain (r : PriorityHookRegistration D) (g : HookFunction D) (data : D)
    (reg : Registry D) :
  hook r = Plain g ->
  snd (fst (invoke r data reg)) = reg /\ snd (invoke r data reg) = [] /\
  (match timeout r with None => true | Some t => t =? 0 end = true ->
     fst (fst (invoke r data reg)) = hr_settle (g data)).
Proof.
  intros Hg. unfold invoke. rewrite Hg. cbv zeta. cbn [hook_fn wrapper_ids].
  destruct (timeout r) as [t|].
  - destruct (t =? 0); [repeat split|].
    destruct (hr_timing (g data)) as [|d];
      [|destruct (timer_delay t <=? d)];
      (split; [reflexivity|split; [reflexivity|intros H; discriminate H]]).
  - repeat split.
Qed.

Lemma perm_executed (a b c : list string) (x : string) :
  Permutation (app (app (app a [x]) b) c) (app (app a b) (x :: c)).
Proof.
  rewrite <- !app_assoc. apply Permutation_app_head. simpl.
  apply Permutation_middle.
Qed.

Lemma dispatch_plain (ev : HookEvent) (reg : Registry D) :
  forallb (fun r => match hook r with Plain _ => true | OnceWrapper _ _ => false end)
    (live ev reg) = true ->
  forall fuel i data res late,
  (List.length (live ev reg) <= i + fuel)%nat ->
  modifiedData res = data ->
  let '(res', reg', late') := dispatch_loop fuel ev i data res reg late in
  reg' = reg /\ late' = late /\ hookCount res' = hookCount res /\
  Permutation (reported_ids res') (app (reported_ids res) (map reg_id (skipn i (live ev reg)))) /\
  (forallb (fun r => match timeout r with None => true | Some t => t =? 0 end)
     (live ev reg) = true ->
   modifiedData res' = fold_left (fun d r => plain_step r d) (skipn i (live ev reg)) data).
Proof.
  intros Hp fuel. induction fuel as [|fuel IH]; intros i data res late Hlen Hmd.
  - cbn [dispatch_loop]. rewrite skipn_all2 by lia. simpl.
    split; [reflexivity|]. split; [reflexivity|]. split; [reflexivity|].
    split; [rewrite app_nil_r; apply Permutation_refl | intros _; exact Hmd].
  - cbn [dispatch_loop]. destruct (nth_error (live ev reg) i) as [r|] eqn:Hn.
    2: { rewrite (skipn_nth_none _ _ Hn). simpl.
         split; [reflexivity|]. split; [reflexivity|]. split; [reflexivity|].
         split; [rewrite app_nil_r; apply Permutation_refl | intros _; exact Hmd]. }
    rewrite (skipn_nth_error _ _ _ Hn).
    assert (Hin : In r (live ev reg)) by (eapply nth_error_In; exact Hn).
    pose proof (proj1 (forallb_forall _ _) Hp r Hin) as Hr. cbv beta in Hr.
    destruct (hook r) as [g|id g] eqn:Eh; [|discriminate].
    destruct (invoke_plain r g data reg Eh) as (Hi1 & Hi2 & Hi3).
    assert (Hlen' : (List.length (live ev reg) <= S i + fuel)%nat) by lia.
    unfold run_registration. destruct (invoke r data reg) as [[st reg1] late1] eqn:Ei.
    simpl in Hi1, Hi2, Hi3. subst reg1 late1.
    assert (Hps : match timeout r with None => true | Some t => t =? 0 end = true ->
                  plain_step r data = match st with
                                      | Resolved (Some x) => x | _ => data end).
    { intros Ht. unfold plain_step. rewrite Eh. cbn [hook_fn]. rewrite <- (Hi3 Ht).
      reflexivity. }
    destruct st as [[x|]|e]; cbn beta iota; rewrite app_nil_r.
    + match goal with |- context [dispatch_loop fuel ev (S i) ?d ?rs reg late] =>
        specialize (IH (S i) d rs late Hlen' ltac:(simpl; first [reflexivity|exact Hmd]));
        destruct (dispatch_loop fuel ev (S i) d rs reg late) as [[res2 reg2] late2]
      end.
      destruct IH as (IH1 & IH2 & IH3 & IH4 & IH5).
      split; [exact IH1|]. split; [exact IH2|]. split; [exact IH3|]. split.
      * eapply Permutation_trans; [exact IH4|]. unfold reported_ids. simpl.
        rewrite map_app. apply perm_executed.
      * intros Ht. rewrite (IH5 Ht). simpl.
        rewrite (Hps (proj1 (forallb_forall _ _) Ht r Hin)). reflexivity.
    + match goal with |- context [dispatch_loop fuel ev (S i) ?d ?rs reg late] =>
        specialize (IH (S i) d rs late Hlen' ltac:(simpl; first [reflexivity|exact Hmd]));
        destruct (dispatch_loop fuel ev (S i) d rs reg late) as [[res2 reg2] late2]
      end.
      destruct IH as (IH1 & IH2 & IH3 & IH4 & IH5).
      split; [exact IH1|]. split; [exact IH2|]. split; [exact IH3|]. split.
      * eapply Permutation_trans; [exact IH4|]. unfold reported_ids. simpl.
        rewrite map_app. apply perm_executed.
      * intros Ht. rewrite (IH5 Ht). simpl.
        rewrite (Hps (proj1 (forallb_forall _ _) Ht r Hin)). reflexivity.
    + match goal with |- context [dispatch_loop fuel ev (S i) ?d ?rs reg late] =>
        specialize (IH (S i) d rs late Hlen' ltac:(simpl; first [reflexivity|exact Hmd]));
        destruct (dispatch_loop fuel ev (S i) d rs reg late) as [[res2 reg2] late2]
      end.
      destruct IH as (IH1 & IH2 & IH3 & IH4 & IH5).
      split; [exact IH1|]. split; [exact IH2|]. split; [exact IH3|]. split.
      * eapply Permutation_trans; [exact IH4|]. unfold reported_ids. simpl.
        rewrite map_app, <- !app_assoc. apply Permutation_refl.
      * intros Ht. rewrite (IH5 Ht). simpl.
        rewrite (Hps (proj1 (forallb_forall _ _) Ht r Hin)). reflexivity.
Qed.

(** X18: When every live registration of the event is a plain hook (no
    one-shot wrapper), [executeHooksWithMonitoring] leaves the registry
    unchanged and reports every registration exactly once, as executed
    or as failed; when no registration has a truthy [timeout], the
    final [modifiedData] is the payload passed through the hooks in
    priority order, each one replacing it unless it returns
    [undefined] or throws. *)
Theorem plain_hooks_all_reported (ev : HookEvent) (data : D) (reg : Registry D) :
  forallb (fun r => match hook r with Plain _ => true | OnceWrapper _ _ => false end)
    (live ev reg) = true ->
  let '(res, reg') := executeHooksWithMonitoring ev data reg in
  reg' = reg /\ hookCount res = List.length (live ev reg) /\
  Permutation (reported_ids res) (map reg_id (live ev reg)) /\
  (forallb (fun r => match timeout r with None => true | Some t => t =? 0 end)
     (live ev reg) = true ->
   modifiedData res = fold_left (fun d r => plain_step r d) (live ev reg) data).
Proof.
  intros Hp. unfold executeHooksWithMonitoring. cbv zeta.
  pose proof (dispatch_plain ev reg Hp (List.length (live ev reg)) 0 data
                (mkResult true [] [] data (List.length (live ev reg))) []
                (Nat.le_refl _) eq_refl) as H.
  destruct (dispatch_loop (List.length (live ev reg)) ev 0 data
              (mkResult true [] [] data (List.length (live ev reg))) reg [])
    as [[res reg'] late].
  destruct H as (H1 & H2 & H3 & H4 & H5). subst reg' late.
  split; [reflexivity|]. split; [exact H3|]. split; [exact H4|exact H5].
Qed.

(** X19: A registration whose [timeout] is absent or [0] is awaited without
    a timer: the call settles as the callback does, however long it
    takes.  A non-zero [timeout] below 1 or above 2147483647 ms is
    clamped by the timer to 1 ms, so the call is rejected with
    [Hook execution timed out after <timeout>ms] as soon as the
    callback's promise settles in a later macrotask more than 1 ms
    after the call. *)
Theorem timeout_zero_or_clamped (r : PriorityHookRegistration D) (data : D)
    (reg : Registry D) :
  ((timeout r = None \/ timeout r = Some 0) ->
     fst (fst (invoke r data reg)) = hr_settle (hook_fn (hook r) data)) /\
  (forall t d, timeout r = Some t -> t <> 0 -> (t < 1 \/ 2147483647 < t) ->
     hr_timing (hook_fn (hook r) data) = After d -> 1 < d ->
     fst (fst (invoke r data reg)) = Rejected (timeout_error t)).
Proof.
  split.
  - intros [H|H]; unfold invoke; rewrite H; reflexivity.
  - intros t d H Ht0 Hr Hdt Hd. unfold invoke. rewrite H. cbv zeta.
    replace (t =? 0) with false by (symmetry; apply Z.eqb_neq, Ht0).
    assert (Hd1 : timer_delay t = 1).
    { unfold timer_delay. destruct Hr as [Hr|Hr]; apply Z.ltb_lt in Hr; rewrite Hr;
        [reflexivity|rewrite orb_true_r; reflexivity]. }
    rewrite Hdt, Hd1. replace (1 <=? d) with true by (symmetry; apply Z.leb_le; lia).
    reflexivity.
Qed.

End HookFacts.

Section EmitterFacts.
Import EmitterModel EmitterOps.
Context {D : Type}.

Lemma EventKey_eqb_refl (k : EventKey) : EventKey_eqb k k = true.
Proof. destruct k; simpl; [apply HookEvent_eqb_refl|reflexivity]. Qed.


Lemma e_lookup_update_same (k : EventKey) (g : list (EReg D) -> list (EReg D))
    (m : list (EventKey * list (EReg D))) :
  e_lookup k (e_update k g m) = option_map g (e_lookup k m).
Proof.
  induction m as [|[e l] m IH]; simpl; [reflexivity|].
  destruct (EventKey_eqb e k) eqn:E; simpl; rewrite E; [reflexivity|exact IH].
Qed.


Lemma e_lookup_app (k : EventKey) (m t : list (EventKey * list (EReg D))) :
  e_lookup k (app m t) = match e_lookup k m with Some l => Some l | None => e_lookup k t end.
Proof.
  induction m as [|[e l] m IH]; simpl; [reflexivity|].
  destruct (EventKey_eqb e k); [reflexivity|exact IH].
Qed.






Lemma e_live_register (ev : HookEvent) (h : EHook D) (prio : Z) (st : Emitter D) :
  e_live ev (e_registerHook (HookKey ev) h prio st) =
  e_sort (app (e_live ev st)
            [mkEReg (HookKey ev) h (if prio =? 0 then 100 else prio)
               (String.append "hook-" (show_Z (nextHookId st)))]).
Proof.
  unfold e_registerHook, e_live. simpl. destruct (e_lookup (HookKey ev) (e_regs st)) as [l|] eqn:E.
  - rewrite e_lookup_update_same, E. reflexivity.
  - rewrite e_lookup_update_same, e_lookup_app, E. simpl.
    rewrite HookEvent_eqb_refl. reflexivity.
Qed.


Lemma e_live_unregister (ev : HookEvent) (k : FnRef) (st : Emitter D) :
  e_live ev (e_unregisterHook ev k st) = remove_first_ref k (e_live ev st).
Proof.
  unfold e_unregisterHook, e_live. simpl. rewrite e_lookup_update_same.
  destruct (e_lookup (HookKey ev) (e_regs st)); reflexivity.
Qed.



Lemma e_loop_plain (ev : HookEvent) (st : Emitter D) :
  forallb is_plain (e_live ev st) = true ->
  (forall r d, In r (e_live ev st) -> exists v, hr_settle (e_fn (e_hook r) d) = Resolved v) ->
  forall fuel i d, (List.length (e_live ev st) <= i + fuel)%nat ->
  e_loop fuel ev i d st = (inl (fold_left (fun d r => e_step r d) (skipn i (e_live ev st)) d), st).
Proof.
  intros Hp Hres fuel. induction fuel as [|fuel IH]; intros i d Hlen.
  - cbn [e_loop]. rewrite skipn_all2 by lia. reflexivity.
  - cbn [e_loop]. destruct (nth_error (e_live ev st) i) as [r|] eqn:Hn.
    + rewrite (skipn_nth_error _ _ _ Hn). cbn [fold_left].
      assert (Hin : In r (e_live ev st)) by (eapply nth_error_In; exact Hn).
      pose proof (proj1 (forallb_forall _ _) Hp r Hin) as Hpl. unfold is_plain in Hpl.
      destruct (Hres r d Hin) as [v Hv].
      assert (Hs : e_step r d = match v with Some x => x | None => d end)
        by (unfold e_step; rewrite Hv; destruct v; reflexivity).
      unfold e_call.
      destruct (e_hook r) as [k g|k g|k fi t g] eqn:Eh; try discriminate.
      cbn [e_fn] in Hv. cbv beta iota. rewrite Hv. rewrite IH by lia. rewrite Hs. reflexivity.
    + rewrite (skipn_nth_none _ _ Hn). reflexivity.
Qed.

(** X21: When every listener of the event was added with [on] and every
    listener's promise resolves, [executeHooks] leaves the emitter
    unchanged and returns the payload passed through the listeners in
    priority order, each one replacing it unless it returns
    [undefined]. *)
Theorem emitter_plain_hooks_thread_payload (ev : HookEvent) (data : D) (st : Emitter D) :
  forallb is_plain (e_live ev st) = true ->
  (forall r d, In r (e_live ev st) -> exists v, hr_settle (e_fn (e_hook r) d) = Resolved v) ->
  executeHooks ev data st = (inl (fold_left (fun d r => e_step r d) (e_live ev st) data), st).
Proof.
  intros Hp Hres. unfold executeHooks.
  destruct (e_lookup (HookKey ev) (e_regs st)) as [l|] eqn:E.
  - destruct l as [|r l'].
    + unfold e_live. rewrite E. reflexivity.
    + rewrite (e_loop_plain ev st Hp Hres) by (unfold e_live; rewrite E; simpl; lia).
      reflexivity.
  - unfold e_live. rewrite E. reflexivity.
Qed.




Lemma e_live_set_fired (ev : HookEvent) (k : FnRef) (st : Emitter D) :
  e_live ev (set_fired ev k st) = map (e_fire k) (e_live ev st).
Proof.
  unfold set_fired, e_live. simpl. rewrite e_lookup_update_same.
  destruct (e_lookup (HookKey ev) (e_regs st)); reflexivity.
Qed.

Lemma executeHooks_live (ev : HookEvent) (data : D) (st : Emitter D) :
  executeHooks ev data st =
  match e_live ev st with
  | [] => (inl data, st)
  | l => e_loop (List.length l) ev 0 data st
  end.
Proof.
  unfold executeHooks, e_live. destruct (e_lookup (HookKey ev) (e_regs st)) as [[|r l]|];
    reflexivity.
Qed.

Lemma e_loop_S_some (fuel : nat) (ev : HookEvent) (i : nat) (d : D) (st : Emitter D)
    (r : EReg D) (fo : option (HookFunction D)) (st1 : Emitter D) :
  nth_error (e_live ev st) i = Some r -> e_call ev r st = (fo, st1) ->
  e_loop (S fuel) ev i d st =
  match fo with
  | None => e_loop fuel ev (S i) d st1
  | Some f =>
      match hr_settle (f d) with
      | Resolved v => e_loop fuel ev (S i) (match v with Some x => x | None => d end) st1
      | Rejected _ => (inr hookStartTime_error, st1)
      end
  end.
Proof. intros Hn Hc. simpl. rewrite Hn, Hc. reflexivity. Qed.

Lemma e_loop_S_none (fuel : nat) (ev : HookEvent) (i : nat) (d : D) (st : Emitter D) :
  nth_error (e_live ev st) i = None -> e_loop (S fuel) ev i d st = (inl d, st).
Proof. intros Hn. simpl. rewrite Hn. reflexivity. Qed.

(** X23: On an event with no listener, [once(event, hook, priority)]
    registers [wrappedHook] and Node's bound [onceWrapper].  With a
    stored priority of at most 100 ([0] counts as 100), [wrappedHook]
    runs first and splices itself out, the iterator stops, and the
    bound wrapper is left: the callback runs on the first dispatch and
    again on the second.  With a stored priority above 100 the bound
    wrapper runs first and calls the callback, which then runs on the
    first dispatch only.  From the third dispatch on, the event's
    dispatch returns the payload and changes nothing. *)
Theorem emitter_once_dispatch_count (ev : HookEvent) (f : HookFunction D) (g : D -> D)
    (p : Z) (st : Emitter D) (d1 d2 d3 : D) :
  e_live ev st = [] ->
  (forall d, hr_settle (f d) = Resolved (Some (g d))) ->
  let r1 := executeHooks ev d1 (once ev f p st) in
  let r2 := executeHooks ev d2 (snd r1) in
  fst r1 = inl (g d1) /\
  fst r2 = inl (if (if p =? 0 then 100 else p) <=? 100 then g d2 else d2) /\
  executeHooks ev d3 (snd r2) = (inl d3, snd r2).
Proof.
  intros Hst Hf. cbv zeta.
  set (n := nextHookId st).
  set (p' := if p =? 0 then 100 else p).
  set (w := mkEReg (HookKey ev) (EOnce (WrapperFn n) f) p'
              (String.append "hook-" (show_Z n))).
  set (b := fun fi => mkEReg (HookKey ev) (EOnceWrap (OnceWrapFn n) fi (WrapperFn n) f) 100
              (String.append "hook-" (show_Z (n + 1)))).
  set (st1 := once ev f p st).
  assert (H1 : e_live ev st1 = if 100 <? p' then [b false; w] else [w; b false]).
  { unfold st1, once. cbv zeta. rewrite !e_live_register, Hst. reflexivity. }
  assert (Hw : forall l, remove_first_ref (WrapperFn n) (w :: l) = l)
    by (intros l; simpl; rewrite Z.eqb_refl; reflexivity).
  assert (Hb : forall fi l, remove_first_ref (WrapperFn n) (b fi :: l) =
                            b fi :: remove_first_ref (WrapperFn n) l)
    by reflexivity.
  assert (Hfire : forall fi, e_fire (OnceWrapFn n) (b fi) = b true)
    by (intros fi; unfold e_fire; simpl; rewrite Z.eqb_refl; reflexivity).
  assert (Hfw : e_fire (OnceWrapFn n) w = w) by reflexivity.
  assert (Cw : forall s', e_call ev w s' = (Some f, e_unregisterHook ev (WrapperFn n) s'))
    by reflexivity.
  assert (Cb : forall s', e_call ev (b false) s' =
                 (Some f, e_unregisterHook ev (WrapperFn n) (set_fired ev (OnceWrapFn n) s')))
    by reflexivity.
  assert (Cf : forall s', e_call ev (b true) s' = (None, s')) by reflexivity.
  (* a fired wrapper alone: the dispatch returns the payload, nothing changes *)
  assert (H3 : forall s' d, e_live ev s' = [b true] -> executeHooks ev d s' = (inl d, s')).
  { intros s' d Hl. rewrite executeHooks_live, Hl. cbn [List.length].
    rewrite (e_loop_S_some 0 ev 0 d s' (b true) None s') by (rewrite ?Hl; reflexivity).
    reflexivity. }
  rewrite executeHooks_live, H1.
  destruct (100 <? p') eqn:Ep; cbn [List.length].
  - (* [b false; w]: the bound wrapper runs first *)
    replace (p' <=? 100) with false by (symmetry; apply Z.leb_gt, Z.ltb_lt, Ep).
    set (st2 := e_unregisterHook ev (WrapperFn n) (set_fired ev (OnceWrapFn n) st1)).
    assert (H2 : e_live ev st2 = [b true]).
    { unfold st2. rewrite e_live_unregister, e_live_set_fired, H1.
      cbn [map]. rewrite Hfire, Hfw, Hb, Hw. reflexivity. }
    rewrite (e_loop_S_some 1 ev 0 d1 st1 (b false) (Some f) st2) by (rewrite ?H1; reflexivity).
    rewrite Hf, e_loop_S_none by (rewrite H2; reflexivity).
    split; [reflexivity|]. cbn [snd]. rewrite (H3 st2 d2 H2).
    split; [reflexivity|]. apply H3, H2.
  - (* [w; b false]: [wrappedHook] runs first and splices itself out *)
    replace (p' <=? 100) with true by (symmetry; apply Z.leb_le, Z.ltb_ge, Ep).
    set (st2 := e_unregisterHook ev (WrapperFn n) st1).
    assert (H2 : e_live ev st2 = [b false]).
    { unfold st2. rewrite e_live_unregister, H1, Hw. reflexivity. }
    rewrite (e_loop_S_some 1 ev 0 d1 st1 w (Some f) st2) by (rewrite ?H1; reflexivity).
    rewrite Hf, e_loop_S_none by (rewrite H2; reflexivity).
    split; [reflexivity|]. cbn [snd].
    set (st3 := e_unregisterHook ev (WrapperFn n) (set_fired ev (OnceWrapFn n) st2)).
    assert (H4 : e_live ev st3 = [b true]).
    { unfold st3. rewrite e_live_unregister, e_live_set_fired, H2. cbn [map].
      rewrite Hfire. reflexivity. }
    rewrite executeHooks_live, H2. cbn [List.length].
    rewrite (e_loop_S_some 0 ev 0 d2 st2 (b false) (Some f) st3) by (rewrite ?H2; reflexivity).
    rewrite Hf. cbn [e_loop fst snd].
    split; [reflexivity|]. apply H3, H4.
Qed.

End EmitterFacts.

(** * Instances of the properties on concrete inputs *)
Section Witnesses.
Import StreamBufferModel BufferManagerModel HookManagerModel EmitterModel Fixtures.

Lemma inactive_buffer_drops_chunks_witness :
  let s := pause (newStreamBuffer "w" cfg_size3 None 0) in
  isActive s = false /\
  (addChunk s chunk_a 5 = (mkAddResult false None 0, s, []) /\
   addChunks s [chunk_b; chunk_c] 5 = (mkAddResult false None 0, s, []) /\
   isActive (pause s) = false /\ isActive (snd (destroy s)) = false).
Proof.
  cbv zeta. split; [reflexivity|].
  apply (inactive_buffer_drops_chunks _ chunk_a [chunk_b; chunk_c] 5).
  reflexivity.
Defined.


Lemma time_strategy_flush_predicate_witness :
  let s := newStreamBuffer "w" cfg_time None 0 in
  isActive s = true /\ strategy (config s) = Time /\
  ((let '(r, s', _) := addChunk s chunk_a 1500 in
    shouldFlush r =
      (maxSize (config s) <=? Z.of_nat (List.length (chunks s)) + 1)
      || (maxTime (config s) <=? 1500 - createdAt s) /\
    flushReason r =
      (if maxSize (config s) <=? Z.of_nat (List.length (chunks s)) + 1 then Some RSize
       else if maxTime (config s) <=? 1500 - createdAt s then Some RTime else None) /\
    createdAt s' = createdAt s) /\
   createdAt (snd (flush s)) = createdAt s /\
   (forall o, createdAt (snd (flush_resume s o)) = createdAt s)).
Proof.
  cbv zeta. split; [reflexivity|]. split; [reflexivity|].
  apply (time_strategy_flush_predicate _ chunk_a 1500); reflexivity.
Defined.

Lemma addChunk_appends_and_queues_witness :
  let s := newStreamBuffer "w" cfg_size3 None 0 in
  isActive s = true /\
  (let '(r, s', ts) := addChunk s chunk_a 1 in
   chunks s' = app (chunks s) [chunk_a] /\ lastChunkTime s' = 1 /\
   totalChunksAdded s' = totalChunksAdded s + 1 /\
   createdAt s' = createdAt s /\ totalFlushes s' = totalFlushes s /\
   (shouldFlush r, flushReason r) = shouldFlush_check s' 1 /\
   bufferedChunks r = Z.of_nat (List.length (chunks s')) /\
   ts = match shouldFlush r, flushReason r with
        | true, Some rr => [ImmediateFlush rr]
        | _, _ => []
        end).
Proof.
  cbv zeta. split; [reflexivity|].
  apply (addChunk_appends_and_queues _ chunk_a 1); reflexivity.
Defined.

Lemma flush_empties_buffer_witness :
  let s := snd (fst (addChunk (newStreamBuffer "w" cfg_size3 None 0) chunk_a 1)) in
  isActive s = true /\ chunks s <> [] /\
  ((exists o, flush_begin s = FlushAwaiting (chunks s) o) /\
   (forall s_mid o,
       chunks (snd (flush_resume s_mid o)) = [] /\
       fst (flush (snd (flush_resume s_mid o))) = inl []) /\
   (forall s_mid e, flush_resume s_mid (FlushErr e) = (inr e, set_chunks s_mid [])) /\
   (forall s', isActive s' = false -> flush s' = (inl [], s'))).
Proof.
  cbv zeta. split; [reflexivity|]. split; [vm_compute; discriminate|].
  apply flush_empties_buffer; [reflexivity | vm_compute; discriminate].
Defined.

Lemma createBuffer_capacity_witness :
  let m := mgr_one_active in
  let '(out, m') := createBuffer m "b2" None None 400001 in
  (map_has "b2" (buffers m) = true -> out = inr (duplicate_error "b2") /\ m' = m) /\
  (map_has "b2" (buffers m) = false ->
     let survivors :=
       if maxBuffers (bm_config m) <=? map_size (buffers m)
       then filter (fun e => negb (evicted (cleanupAge (bm_config m)) 400001 (snd e)))
              (buffers m)
       else buffers m in
     (out = inr (capacity_error "b2" (maxBuffers (bm_config m))) <->
        maxBuffers (bm_config m) <= map_size survivors) /\
     (maxBuffers (bm_config m) <= map_size survivors -> buffers m' = survivors) /\
     (map_size survivors < maxBuffers (bm_config m) ->
        buffers m' = app survivors
          [("b2", mkInfo "b2"
             (newStreamBuffer "b2" (defaultBufferConfig (bm_config m)) None 400001)
             400001 400001)])).
Proof. exact (createBuffer_capacity mgr_one_active "b2" None None 400001). Defined.

Lemma timed_out_hook_keeps_payload_witness :
  nth_error (live MessageBefore reg_timeout) 0 = Some slow_registration /\
  hr_timing (hLate "") = After 50 /\
  dispatch_loop 2 MessageBefore 0 "" (mkResult true [] [] "" 2) reg_timeout [] =
  dispatch_loop 1 MessageBefore 1 ""
    (mkResult true [] [mkHookError "slow" MessageBefore (timeout_error 10)] "" 2)
    reg_timeout [].
Proof.
  split; [reflexivity|]. split; [reflexivity|].
  apply (proj1 (timed_out_hook_keeps_payload 1 MessageBefore 0 "" (mkResult true [] [] "" 2)
                  reg_timeout [] slow_registration 10 eq_refl eq_refl
                  ltac:(discriminate)) 50);
    [reflexivity | vm_compute; reflexivity].
Defined.

End Witnesses.

(** * Instances of the further properties on concrete inputs *)
Section ExtraWitnesses.
Import StreamBufferModel StreamBufferOps BufferManagerModel BufferManagerOps
  HookManagerModel HookManagerOps EmitterModel EmitterOps Fixtures.

Lemma addChunks_as_addChunk_sequence_witness :
  let s := newStreamBuffer "w" cfg_size3 None 0 in
  isActive s = true /\
  addChunks s (app [chunk_a] [chunk_b]) 1 =
  addChunk (fold_left (fun acc x => snd (fst (addChunk acc x 1))) [chunk_a] s) chunk_b 1.
Proof.
  cbv zeta. split; [reflexivity|].
  apply (addChunks_as_addChunk_sequence _ [chunk_a] chunk_b 1). reflexivity.
Defined.

Lemma hybrid_hint_is_size_or_age_witness :
  let s := newStreamBuffer "w" (mkConfig 10 100 Hybrid true) None 0 in
  isActive s = true /\ strategy (config s) = Hybrid /\ 0 < maxTime (config s) /\
  (let hint (n : Z) :=
     if maxSize (config s) <=? n then (true, Some RSize)
     else if maxTime (config s) <=? 150 - createdAt s then (true, Some RHybrid)
     else (false, None) in
   (shouldFlush (fst (fst (addChunk s chunk_a 150))),
    flushReason (fst (fst (addChunk s chunk_a 150))))
     = hint (Z.of_nat (List.length (chunks s)) + 1) /\
   (shouldFlush (fst (fst (addChunks s [chunk_b; chunk_c] 150))),
    flushReason (fst (fst (addChunks s [chunk_b; chunk_c] 150))))
     = hint (Z.of_nat (List.length (chunks s)) + Z.of_nat (List.length [chunk_b; chunk_c]))).
Proof.
  cbv zeta. split; [reflexivity|]. split; [reflexivity|]. split; [reflexivity|].
  apply (hybrid_hint_is_size_or_age _ chunk_a [chunk_b; chunk_c] 150); reflexivity.
Defined.

Lemma removeChunkAt_index_witness :
  let s := snd (fst (addChunks (newStreamBuffer "w" cfg_time None 0)
                       [chunk_a; chunk_b; chunk_c] 1)) in
  getChunkAt s (-1) = None /\
  removeChunkAt s (-1) = removeChunkAt s (Z.of_nat (List.length (chunks s)) + -1).
Proof.
  cbv zeta.
  pose proof (removeChunkAt_index
                (snd (fst (addChunks (newStreamBuffer "w" cfg_time None 0)
                             [chunk_a; chunk_b; chunk_c] 1))) (-1)) as H.
  cbv zeta in H. apply (proj1 (proj2 (proj2 H))).
  vm_compute. split; [intro Hc; discriminate Hc | reflexivity].
Defined.

Lemma pause_resume_round_trip_witness :
  let s := newStreamBuffer "w" cfg_time None 0 in
  isActive s = true /\
  (resume (pause s) = set_active_timer s true (timed (config s)) /\ resume s = s).
Proof. cbv zeta. split; [reflexivity|]. apply pause_resume_round_trip. reflexivity. Defined.

Lemma flush_timer_fires_once_witness :
  let s := snd (fst (addChunk (newStreamBuffer "w" cfg_time None 0) chunk_a 1)) in
  flushTimerArmed s = true /\ isActive s = true /\ chunks s <> [] /\
  chunks (fire_flush_timer s) = [].
Proof.
  cbv zeta. split; [reflexivity|]. split; [reflexivity|].
  split; [vm_compute; discriminate|].
  pose proof (flush_timer_fires_once
                (snd (fst (addChunk (newStreamBuffer "w" cfg_time None 0) chunk_a 1))) [])
    as H.
  cbv zeta in H. apply (proj2 (proj2 H)); [reflexivity | reflexivity | vm_compute; discriminate].
Defined.

Lemma addChunk_autocreate_fails_but_registers_witness :
  let st := mkState (mkManager mgr_cfg []) 0 0 in
  map_has "b9" (buffers (mgr st)) = false /\
  map_size (buffers (mgr st)) < maxBuffers (bm_config (mgr st)) /\
  (let '(r, st1, ts) := mgr_addChunk st "b9" chunk_a true None 5 in
   r = mkMAdd false None None None /\ ts = [] /\
   totalChunksProcessed st1 = totalChunksProcessed st /\
   option_map (fun i => chunks (bi_buffer i)) (map_get "b9" (buffers (mgr st1))) = Some [] /\
   ma_success (fst (fst (mgr_addChunk st1 "b9" chunk_a true None 5))) = true /\
   option_map (fun i => chunks (bi_buffer i))
     (map_get "b9" (buffers (mgr (snd (fst (mgr_addChunk st1 "b9" chunk_a true None 5))))))
   = Some [chunk_a]).
Proof.
  cbv zeta. split; [reflexivity|]. split; [reflexivity|].
  apply (addChunk_autocreate_fails_but_registers _ "b9" chunk_a None 5); reflexivity.
Defined.

Lemma pauseAll_addChunk_counts_dropped_witness :
  map_has "b1" (buffers mgr_one_active) = true /\
  (let '(r, st1, ts) :=
     mgr_addChunk (mkState (pauseAll mgr_one_active) 0 0) "b1" chunk_a false None 5 in
   r = mkMAdd true (Some false) None (Some "b1") /\ ts = [] /\
   totalChunksProcessed st1 = 0 + 1 /\
   option_map (fun i => chunks (bi_buffer i)) (map_get "b1" (buffers (mgr st1))) =
   option_map (fun i => chunks (bi_buffer i)) (map_get "b1" (buffers mgr_one_active))).
Proof.
  split; [reflexivity|].
  apply (pauseAll_addChunk_counts_dropped mgr_one_active 0 0 "b1" chunk_a false None 5).
  reflexivity.
Defined.

Lemma createBuffer_removeBuffer_round_trip_witness :
  let m := mkManager mgr_cfg [] in
  map_has "b9" (buffers m) = false /\ map_size (buffers m) < maxBuffers (bm_config m) /\
  (removeBuffer m "b9" = (false, m) /\
   map_has "b9" (buffers (snd (createBuffer m "b9" None None 5))) = true /\
   removeBuffer (snd (createBuffer m "b9" None None 5)) "b9" = (true, m)).
Proof.
  cbv zeta. split; [reflexivity|]. split; [reflexivity|].
  apply (createBuffer_removeBuffer_round_trip _ "b9" None None 5); reflexivity.
Defined.

Lemma registry_stays_sorted_witness :
  registry_sorted reg_h1_h2 = true /\
  registry_sorted (run_hook_ops
    [HRegister MessageBefore hX 10 "h3" None; HDispatch MessageBefore "";
     HRegisterOnce ChunkBefore hY 5 "h4" (Some 10); HUnregister "h1";
     HRegisterGlobal hY 1 "h5"] reg_h1_h2) = true.
Proof. split; [reflexivity|]. apply registry_stays_sorted. reflexivity. Defined.

Lemma register_unregister_round_trip_witness :
  registry_sorted reg_h1_h2 = true /\
  forallb (fun e => negb (has_id "h3" (snd e))) reg_h1_h2 = true /\
  (unregisterHookById "h3" reg_h1_h2 = (false, reg_h1_h2) /\
   fst (unregisterHookById "h3" (snd (registerHook MessageBefore hX 50 "h3" None reg_h1_h2)))
     = true /\
   (forall ev', live ev' (snd (unregisterHookById "h3"
                                (snd (registerHook MessageBefore hX 50 "h3" None reg_h1_h2))))
                = live ev' reg_h1_h2) /\
   fst (unregisterHookById "h3"
          (snd (registerOneTimeHook MessageBefore hX 50 "h3" None reg_h1_h2))) = true /\
   (forall ev', live ev' (snd (unregisterHookById "h3"
                                (snd (registerOneTimeHook MessageBefore hX 50 "h3" None
                                        reg_h1_h2))))
                = live ev' reg_h1_h2)).
Proof.
  split; [reflexivity|]. split; [reflexivity|].
  apply register_unregister_round_trip; reflexivity.
Defined.

Lemma plain_hooks_all_reported_witness :
  forallb (fun r => match hook r with Plain _ => true | OnceWrapper _ _ => false end)
    (live MessageBefore reg_h1_h2) = true /\
  (let '(res, reg') := executeHooksWithMonitoring MessageBefore "" reg_h1_h2 in
   reg' = reg_h1_h2 /\ hookCount res = List.length (live MessageBefore reg_h1_h2) /\
   Permutation (reported_ids res) (map reg_id (live MessageBefore reg_h1_h2)) /\
   (forallb (fun r => match timeout r with None => true | Some t => t =? 0 end)
      (live MessageBefore reg_h1_h2) = true ->
    modifiedData res =
      fold_left (fun d r => plain_step r d) (live MessageBefore reg_h1_h2) "")).
Proof. split; [reflexivity|]. apply plain_hooks_all_reported. reflexivity. Defined.


Lemma emitter_plain_hooks_thread_payload_witness :
  forallb is_plain (e_live MessageBefore em_h1_h2) = true /\
  (forall r d, In r (e_live MessageBefore em_h1_h2) ->
     exists v, hr_settle (e_fn (e_hook r) d) = Resolved v) /\
  executeHooks MessageBefore "" em_h1_h2 =
  (inl (fold_left (fun d r => e_step r d) (e_live MessageBefore em_h1_h2) ""), em_h1_h2).
Proof.
  assert (H1 : forallb is_plain (e_live MessageBefore em_h1_h2) = true) by reflexivity.
  assert (H2 : forall r d, In r (e_live MessageBefore em_h1_h2) ->
                 exists v, hr_settle (e_fn (e_hook r) d) = Resolved v).
  { intros r d Hin. vm_compute in Hin.
    destruct Hin as [<-|[<-|[]]]; eexists; reflexivity. }
  split; [exact H1|]. split; [exact H2|].
  exact (emitter_plain_hooks_thread_payload MessageBefore "" em_h1_h2 H1 H2).
Defined.

Lemma emitter_once_dispatch_count_witness :
  e_live MessageBefore (@newEmitter string) = [] /\
  (forall d, hr_settle (hX d) = Resolved (Some (String.append d "X"))) /\
  (let r1 := executeHooks MessageBefore "" (once MessageBefore hX 1 newEmitter) in
   let r2 := executeHooks MessageBefore "" (snd r1) in
   fst r1 = inl "X" /\
   fst r2 = inl (if (if 1 =? 0 then 100 else 1) <=? 100 then "X" else "") /\
   executeHooks MessageBefore "" (snd r2) = (inl "", snd r2)).
Proof.
  split; [reflexivity|]. split; [intros d; reflexivity|].
  apply (emitter_once_dispatch_count MessageBefore hX (fun d => String.append d "X") 1
           newEmitter "" "" "");
    [reflexivity | intros d; reflexivity].
Defined.

End ExtraWitnesses.
